(** * Middle-click drag-to-scroll controller

    A shallow embedding of [MiddleScrollController]
    (src/vs/editor/contrib/middleScroll/browser/middleScroll.ts) and the
    properties of its state machine and of its per-frame scroll step.

    Numbers.  Pointer coordinates and scroll offsets are pixel counts and are
    modelled as [Z]; the one division of the source, followed by
    [Math.round], is carried out in [Q].  [Math.round] yields [-0] for
    arguments in [[-0.5, 0)]; [-0] is neither [< 0] nor [> 0] and is neutral
    for [+], so it is modelled as [0].

    State.  The fields of the controller are a record; the window (move
    listener, body attribute and class, queue of animation-frame callbacks)
    and the editor's viewport are records next to it, and every method is a
    function from [World] to [World], one [let] per statement. *)

From Stdlib Require Import ZArith QArith Qround Bool List String Lia.
Import ListNotations.
Open Scope Z_scope.

(** ** Numbers *)

(** [Math.round]: the nearest integer, a tie going towards plus infinity. *)
Definition Math_round (q : Q) : Z := Qfloor (q + (1 # 2))%Q.

(** ** Events delivered by the host *)

(** [IMouseEvent] (vs/base/browser/mouseEvent), the fields the controller
    reads. *)
Record IMouseEvent : Type := {
  posx : Z;
  posy : Z;
  middleButton : bool
}.

(** The DOM [MouseEvent] of the [mousemove] listener. *)
Record MouseEvent : Type := {
  pageX : Z;
  pageY : Z
}.

(** ** The controller and its collaborators *)

(** The indicator element [dot]: [style.left] and [style.top] in px (unset
    until the first session) and whether its class list has [hidden]. *)
Record HTMLDivElement : Type := {
  style_left : option Z;
  style_top : option Z;
  hidden : bool
}.

(** The fields of [MiddleScrollController].  [threshold] and [speed] are
    never assigned after their initialisers and are constants below. *)
Record Controller : Type := {
  moving : bool;
  scrolling : bool;
  currentX : option Z;
  currentY : option Z;
  x : option Z;
  y : option Z;
  animationFrameId : option nat;
  dot : option HTMLDivElement;
  disposed : bool
}.

Definition threshold : Z := 5.
Definition speed : Z := 2.

(** What the controller touches of [getWindow()]: whether [setCurrent] is
    registered for [mousemove], the body's [data-scroll-direction] attribute,
    whether the body has the class [scroll-editor-on-middle-click-editor],
    and the frame scheduler: the handles of the queued [scrollPane] callbacks
    and the next handle [requestAnimationFrame] gives out. *)
Record Window : Type := {
  mousemoveListener : bool;
  scrollDirection : option string;
  scrollClass : bool;
  frameCallbacks : list nat;
  nextHandle : nat
}.

(** Modelled from the spec: the editor ([ICodeEditor]) is not part of the
    sources; its viewport reports and stores the two scroll offsets
    ([getScrollTop], [getScrollLeft], [setScrollTop], [setScrollLeft]). *)
Record Viewport : Type := {
  scrollTop : Z;
  scrollLeft : Z
}.

Record World : Type := {
  ctl : Controller;
  win : Window;
  view : Viewport
}.

(** *** Field updates *)

Definition with_ctl (f : Controller -> Controller) (w : World) : World :=
  {| ctl := f (ctl w); win := win w; view := view w |}.

Definition with_win (f : Window -> Window) (w : World) : World :=
  {| ctl := ctl w; win := f (win w); view := view w |}.

Definition with_view (f : Viewport -> Viewport) (w : World) : World :=
  {| ctl := ctl w; win := win w; view := f (view w) |}.

Definition set_moving (b : bool) : World -> World :=
  with_ctl (fun c =>
    {| moving := b; scrolling := scrolling c; currentX := currentX c;
       currentY := currentY c; x := x c; y := y c;
       animationFrameId := animationFrameId c; dot := dot c;
       disposed := disposed c |}).

Definition set_scrolling (b : bool) : World -> World :=
  with_ctl (fun c =>
    {| moving := moving c; scrolling := b; currentX := currentX c;
       currentY := currentY c; x := x c; y := y c;
       animationFrameId := animationFrameId c; dot := dot c;
       disposed := disposed c |}).

Definition set_currentX (v : option Z) : World -> World :=
  with_ctl (fun c =>
    {| moving := moving c; scrolling := scrolling c; currentX := v;
       currentY := currentY c; x := x c; y := y c;
       animationFrameId := animationFrameId c; dot := dot c;
       disposed := disposed c |}).

Definition set_currentY (v : option Z) : World -> World :=
  with_ctl (fun c =>
    {| moving := moving c; scrolling := scrolling c; currentX := currentX c;
       currentY := v; x := x c; y := y c;
       animationFrameId := animationFrameId c; dot := dot c;
       disposed := disposed c |}).

Definition set_x (v : option Z) : World -> World :=
  with_ctl (fun c =>
    {| moving := moving c; scrolling := scrolling c; currentX := currentX c;
       currentY := currentY c; x := v; y := y c;
       animationFrameId := animationFrameId c; dot := dot c;
       disposed := disposed c |}).

Definition set_y (v : option Z) : World -> World :=
  with_ctl (fun c =>
    {| moving := moving c; scrolling := scrolling c; currentX := currentX c;
       currentY := currentY c; x := x c; y := v;
       animationFrameId := animationFrameId c; dot := dot c;
       disposed := disposed c |}).

Definition set_animationFrameId (v : option nat) : World -> World :=
  with_ctl (fun c =>
    {| moving := moving c; scrolling := scrolling c; currentX := currentX c;
       currentY := currentY c; x := x c; y := y c;
       animationFrameId := v; dot := dot c;
       disposed := disposed c |}).

Definition set_dot (v : option HTMLDivElement) : World -> World :=
  with_ctl (fun c =>
    {| moving := moving c; scrolling := scrolling c; currentX := currentX c;
       currentY := currentY c; x := x c; y := y c;
       animationFrameId := animationFrameId c; dot := v;
       disposed := disposed c |}).

Definition set_disposed (b : bool) : World -> World :=
  with_ctl (fun c =>
    {| moving := moving c; scrolling := scrolling c; currentX := currentX c;
       currentY := currentY c; x := x c; y := y c;
       animationFrameId := animationFrameId c; dot := dot c;
       disposed := b |}).

(** *** The window *)

(** [addEventListener('mousemove', this.setCurrent, { capture: true })]: a
    listener that is already registered is not registered twice. *)
Definition addEventListener_mousemove : World -> World :=
  with_win (fun d =>
    {| mousemoveListener := true; scrollDirection := scrollDirection d;
       scrollClass := scrollClass d; frameCallbacks := frameCallbacks d;
       nextHandle := nextHandle d |}).

Definition removeEventListener_mousemove : World -> World :=
  with_win (fun d =>
    {| mousemoveListener := false; scrollDirection := scrollDirection d;
       scrollClass := scrollClass d; frameCallbacks := frameCallbacks d;
       nextHandle := nextHandle d |}).

(** [document.body.setAttribute('data-scroll-direction', v)] and
    [removeAttribute]. *)
Definition set_scrollDirection (v : option string) : World -> World :=
  with_win (fun d =>
    {| mousemoveListener := mousemoveListener d; scrollDirection := v;
       scrollClass := scrollClass d; frameCallbacks := frameCallbacks d;
       nextHandle := nextHandle d |}).

(** [document.body.classList.add / remove]. *)
Definition set_scrollClass (b : bool) : World -> World :=
  with_win (fun d =>
    {| mousemoveListener := mousemoveListener d;
       scrollDirection := scrollDirection d;
       scrollClass := b; frameCallbacks := frameCallbacks d;
       nextHandle := nextHandle d |}).

Definition set_frameCallbacks (l : list nat) : World -> World :=
  with_win (fun d =>
    {| mousemoveListener := mousemoveListener d;
       scrollDirection := scrollDirection d;
       scrollClass := scrollClass d; frameCallbacks := l;
       nextHandle := nextHandle d |}).

(** [requestAnimationFrame(this.scrollPane)]: the callback is queued under a
    fresh handle, which is returned. *)
Definition requestAnimationFrame (w : World) : nat * World :=
  let h := nextHandle (win w) in
  (h, with_win (fun d =>
    {| mousemoveListener := mousemoveListener d;
       scrollDirection := scrollDirection d;
       scrollClass := scrollClass d;
       frameCallbacks := frameCallbacks d ++ [h];
       nextHandle := S h |}) w).

(** [cancelAnimationFrame(h)]: the callback queued under [h], if any, is
    dropped. *)
Definition cancelAnimationFrame (h : nat) (w : World) : World :=
  set_frameCallbacks
    (filter (fun k => negb (Nat.eqb k h)) (frameCallbacks (win w))) w.

(** *** The viewport *)

Definition setScrollTop (v : Z) : World -> World :=
  with_view (fun p => {| scrollTop := v; scrollLeft := scrollLeft p |}).

Definition setScrollLeft (v : Z) : World -> World :=
  with_view (fun p => {| scrollTop := scrollTop p; scrollLeft := v |}).

(** ** The methods of the controller *)

(** The vertical step of [scrollPane] from [diffTop] (lines 65 to 70). *)
Definition moveTop_of (diffTop : Z) : Z :=
  if diffTop >? threshold then
    Math_round (inject_Z (diffTop - threshold) / inject_Z speed)
  else if diffTop <? - threshold then
    Math_round (inject_Z (diffTop + threshold) / inject_Z speed)
  else 0.

(** The horizontal step of [scrollPane] from [diffLeft] (lines 72 to 77). *)
Definition moveLeft_of (diffLeft : Z) : Z :=
  if diffLeft >? threshold then
    Math_round (inject_Z (diffLeft - threshold) / inject_Z speed)
  else if diffLeft <? - threshold then
    Math_round (inject_Z (diffLeft + threshold) / inject_Z speed)
  else 0.

(** The direction code of [scrollPane] (lines 79 to 81). *)
Definition direction_of (moveTop moveLeft : Z) : string :=
  String.append
    (if moveTop <? 0 then "n"%string
     else if moveTop >? 0 then "s"%string else EmptyString)
    (if moveLeft <? 0 then "w"%string
     else if moveLeft >? 0 then "e"%string else EmptyString).

Definition scrollPane (w : World) : World :=
  match currentX (ctl w), currentY (ctl w), x (ctl w), y (ctl w) with
  | Some cX, Some cY, Some aX, Some aY =>
      let top := scrollTop (view w) in
      let left := scrollLeft (view w) in
      let diffTop := cY - aY in
      let moveTop := moveTop_of diffTop in
      let diffLeft := cX - aX in
      let moveLeft := moveLeft_of diffLeft in
      let direction := direction_of moveTop moveLeft in
      let w := if negb (direction =? EmptyString)%string then set_moving true w
               else w in
      let w := set_scrollDirection (Some direction) w in
      let targetTop := top + moveTop in
      let w := setScrollTop targetTop w in
      let targetLeft := left + moveLeft in
      let w := setScrollLeft targetLeft w in
      let (h, w) := requestAnimationFrame w in
      set_animationFrameId (Some h) w
  | _, _, _, _ => w
  end.

Definition stopScroll (w : World) : World :=
  let w := set_scrolling false w in
  let w := set_moving false w in
  let w := removeEventListener_mousemove w in
  let w := match animationFrameId (ctl w) with
           | Some h => set_animationFrameId None (cancelAnimationFrame h w)
           | None => w
           end in
  let w := match dot (ctl w) with
           | Some d =>
               set_dot (Some {| style_left := style_left d;
                                style_top := style_top d;
                                hidden := true |}) w
           | None => w
           end in
  let w := set_scrollDirection None w in
  set_scrollClass false w.

Definition startScroll (e : IMouseEvent) (w : World) : World :=
  let w := if scrolling (ctl w) then stopScroll w else w in
  let w := set_scrolling true w in
  let w := set_moving false w in
  let w := set_scrollClass true w in
  let w := match dot (ctl w) with
           | Some d =>
               set_dot (Some {| style_left := Some (posx e);
                                style_top := Some (posy e);
                                hidden := false |}) w
           | None => w
           end in
  let w := set_x (Some (posx e)) w in
  let w := set_y (Some (posy e)) w in
  let w := set_currentX (Some (posx e)) w in
  let w := set_currentY (Some (posy e)) w in
  let w := addEventListener_mousemove w in
  scrollPane w.

Definition setCurrent (e : MouseEvent) (w : World) : World :=
  let w := set_currentX (Some (pageX e)) w in
  set_currentY (Some (pageY e)) w.

(** [createDot]: a new element with the classes
    [scroll-editor-on-middle-click-dot] and [hidden], appended to the body.
    The disposable it registers is accounted for in [dispose]; the
    [console.log] is not modelled. *)
Definition createDot (w : World) : World :=
  set_dot (Some {| style_left := None; style_top := None; hidden := true |}) w.

(** [e.stopPropagation()] acts on the event only and is not modelled. *)
Definition windowMouseDown (e : IMouseEvent) (w : World) : World :=
  if scrolling (ctl w) then stopScroll w
  else
    let w := match dot (ctl w) with
             | None => createDot w
             | Some _ => w
             end in
    if middleButton e then startScroll e w else w.

Definition windowMouseUp (w : World) : World :=
  if moving (ctl w) then stopScroll w else w.

(** Modelled from the spec: [Disposable] and [DisposableStore]
    (vs/base/common/lifecycle) are not part of the sources.  Disposal runs
    the registered disposables in the order of their registration
    ([stopScroll] from the constructor, then the removal of the dot that
    [createDot] registered), releases the editor's [onMouseDown] and
    [onMouseUp] subscriptions, and does nothing the second time. *)
Definition dispose (w : World) : World :=
  if disposed (ctl w) then w
  else
    let w := stopScroll w in
    let w := match dot (ctl w) with
             | Some _ => set_dot None w
             | None => w
             end in
    set_disposed true w.

(** ** The host: what reaches the controller, and in which state *)

(** The state the constructor leaves, over a viewport at [(top, left)]. *)
Definition initial (top left : Z) : World :=
  {| ctl := {| moving := false; scrolling := false;
               currentX := None; currentY := None; x := None; y := None;
               animationFrameId := None; dot := None; disposed := false |};
     win := {| mousemoveListener := false; scrollDirection := None;
               scrollClass := false; frameCallbacks := []; nextHandle := 1 |};
     view := {| scrollTop := top; scrollLeft := left |} |}.

(** The frame scheduler runs the callback queued under [h], unless it has
    been cancelled in the meantime; all queued callbacks are [scrollPane]. *)
Definition fireFrame (w : World) (h : nat) : World :=
  if existsb (Nat.eqb h) (frameCallbacks (win w)) then
    scrollPane (cancelAnimationFrame h w)
  else w.

(** One display refresh: the callbacks queued before it are run in order;
    those requested meanwhile wait for the next refresh. *)
Definition runAnimationFrame (w : World) : World :=
  fold_left fireFrame (frameCallbacks (win w)) w.

Inductive Event : Type :=
| MouseDown (e : IMouseEvent)
| MouseUp
| MouseMove (e : MouseEvent)
| Frame
| Scrolled (t l : Z)
| Dispose.

(** The editor's [onMouseDown] and [onMouseUp] reach the controller until it
    is disposed, [mousemove] reaches [setCurrent] while it is registered, and
    [Scrolled] is a scroll of the viewport by anyone else. *)
Definition deliver (w : World) (ev : Event) : World :=
  match ev with
  | MouseDown e => if disposed (ctl w) then w else windowMouseDown e w
  | MouseUp => if disposed (ctl w) then w else windowMouseUp w
  | MouseMove e => if mousemoveListener (win w) then setCurrent e w else w
  | Frame => runAnimationFrame w
  | Scrolled t l => setScrollLeft l (setScrollTop t w)
  | Dispose => dispose w
  end.

Definition run (w : World) (tr : list Event) : World := fold_left deliver tr w.

Inductive reachable : World -> Prop :=
| reachable_initial : forall top left, reachable (initial top left)
| reachable_deliver : forall w ev, reachable w -> reachable (deliver w ev).

(** ** Notions the properties are stated with *)

(** The scroll step as the specification words it, from the displacement
    [diff] of the pointer from the anchor along one axis, with
    [deadzone = 5], [speed = 2] and the rounding of the source. *)
Definition spec_deadzone : Z := 5.
Definition spec_speed : Z := 2.

Definition spec_step (diff : Z) : Z :=
  if Z.ltb spec_deadzone diff then
    Math_round (inject_Z (diff - spec_deadzone) / inject_Z spec_speed)
  else if Z.ltb diff (- spec_deadzone) then
    Math_round (inject_Z (diff + spec_deadzone) / inject_Z spec_speed)
  else 0.

(** [s.startsWith(sub)] and [s.includes(sub)]. *)
Fixpoint startsWith (sub s : string) : bool :=
  match sub, s with
  | EmptyString, _ => true
  | String a sub', String b s' => Ascii.eqb a b && startsWith sub' s'
  | String _ _, EmptyString => false
  end.

Fixpoint includes (sub s : string) : bool :=
  startsWith sub s ||
  match s with
  | EmptyString => false
  | String _ s' => includes sub s'
  end.

(** Both samples, anchor and current pointer, are present. *)
Definition samples_set (w : World) : bool :=
  match currentX (ctl w), currentY (ctl w), x (ctl w), y (ctl w) with
  | Some _, Some _, Some _, Some _ => true
  | _, _, _, _ => false
  end.

(** The direction code a tick in [w] computes, when it computes one. *)
Definition tick_direction (w : World) : option string :=
  match currentX (ctl w), currentY (ctl w), x (ctl w), y (ctl w) with
  | Some cX, Some cY, Some aX, Some aY =>
      Some (direction_of (moveTop_of (cY - aY)) (moveLeft_of (cX - aX)))
  | _, _, _, _ => None
  end.

(** A tick in [w] records movement. *)
Definition tick_moves (w : World) : bool :=
  match tick_direction w with
  | Some d => negb (d =? EmptyString)%string
  | None => false
  end.

(** *** The shape of the states the host can reach *)

(** Idle: nothing is scheduled, tracked or shown. *)
Definition idle_shape (w : World) : Prop :=
  moving (ctl w) = false /\
  animationFrameId (ctl w) = None /\
  frameCallbacks (win w) = [] /\
  mousemoveListener (win w) = false /\
  scrollDirection (win w) = None /\
  scrollClass (win w) = false /\
  (forall d, dot (ctl w) = Some d -> hidden d = true).

(** Scrolling: both samples are set, the move listener is registered and
    exactly one frame callback is queued, under [animationFrameId]. *)
Definition scrolling_shape (w : World) : Prop :=
  disposed (ctl w) = false /\
  samples_set w = true /\
  mousemoveListener (win w) = true /\
  scrollClass (win w) = true /\
  exists h, animationFrameId (ctl w) = Some h /\ frameCallbacks (win w) = [h].

Definition well_formed (w : World) : Prop :=
  if scrolling (ctl w) then scrolling_shape w else idle_shape w.

(** Not scrolling implies no frame handle and no recorded movement. *)
Definition idle_implies_clear (w : World) : Prop :=
  scrolling (ctl w) = false ->
  animationFrameId (ctl w) = None /\ moving (ctl w) = false.

(** *** Starts and stops along a trace *)

Definition is_middle_down (ev : Event) : bool :=
  match ev with
  | MouseDown e => middleButton e
  | _ => false
  end.

(** A button-up that triggers [stopScroll]: movement has been recorded. *)
Definition stop_triggering_up (w : World) (ev : Event) : bool :=
  match ev with
  | MouseUp => moving (ctl w)
  | _ => false
  end.

Definition is_disposal (ev : Event) : bool :=
  match ev with
  | Dispose => true
  | _ => false
  end.

(** A button-down, of any button, received while scrolling. *)
Definition down_while_scrolling (w : World) (ev : Event) : bool :=
  match ev with
  | MouseDown _ => scrolling (ctl w)
  | _ => false
  end.

(** A middle-button down that starts a session: the controller is idle and
    still subscribed to the editor. *)
Definition starts (w : World) (ev : Event) : bool :=
  match ev with
  | MouseDown e =>
      middleButton e && negb (scrolling (ctl w)) && negb (disposed (ctl w))
  | _ => false
  end.

Definition stops (w : World) (ev : Event) : bool :=
  stop_triggering_up w ev || down_while_scrolling w ev || is_disposal ev.

(** "A middle-button down has occurred more recently than any
    stop-triggering up or disposal", for the trace [tr] run from [w0]. *)
Definition middle_down_since_stop (w0 : World) (tr : list Event) : Prop :=
  exists pre ev post,
    tr = pre ++ ev :: post /\
    is_middle_down ev = true /\
    forall pre' ev' post',
      post = pre' ++ ev' :: post' ->
      stop_triggering_up (run w0 (pre ++ ev :: pre')) ev' = false /\
      is_disposal ev' = false.

(** The same with the downs told apart by the state they are received in: a
    starting down has occurred more recently than any stop. *)
Definition start_since_stop (w0 : World) (tr : list Event) : Prop :=
  exists pre ev post,
    tr = pre ++ ev :: post /\
    starts (run w0 pre) ev = true /\
    forall pre' ev' post',
      post = pre' ++ ev' :: post' ->
      stops (run w0 (pre ++ ev :: pre')) ev' = false.

Definition no_disposal (tr : list Event) : Prop :=
  Forall (fun ev => is_disposal ev = false) tr.

(** What the pointer source and the frame scheduler deliver without a
    button being pressed. *)
Definition passive (ev : Event) : bool :=
  match ev with
  | MouseUp | MouseMove _ | Frame => true
  | MouseDown _ | Scrolled _ _ | Dispose => false
  end.

(** Everything but a scroll of the viewport by someone else. *)
Definition own_event (ev : Event) : bool :=
  match ev with
  | Scrolled _ _ => false
  | _ => true
  end.

(** *** Sample worlds *)

Definition middle_at (px py : Z) : IMouseEvent :=
  {| posx := px; posy := py; middleButton := true |}.

Definition move_to (px py : Z) : MouseEvent :=
  {| pageX := px; pageY := py |}.

(** A session anchored at (100, 100) whose pointer has moved to
    (100, [py]). *)
Definition session_at (py : Z) : World :=
  run (initial 0 0) [MouseDown (middle_at 100 100); MouseMove (move_to 100 py)].

(** *** Further notions *)

(** The events that may write the scroll offsets: a frame, through
    [scrollPane], and a scroll by someone else. *)
Definition writes_offsets (ev : Event) : bool :=
  match ev with
  | Frame | Scrolled _ _ => true
  | _ => false
  end.

(** The indicator while scrolling: the dot exists, is not hidden and sits
    at the anchor; once the controller is disposed there is no dot. *)
Definition dot_shape (w : World) : Prop :=
  (scrolling (ctl w) = true ->
   exists d, dot (ctl w) = Some d /\ hidden d = false /\
             style_left d = x (ctl w) /\ style_top d = y (ctl w)) /\
  (disposed (ctl w) = true -> dot (ctl w) = None).

(** The gesture of a drag: press the middle button at [e], move to [m], let
    one frame pass, release. *)
Definition drag (e : IMouseEvent) (m : MouseEvent) : list Event :=
  [MouseDown e; MouseMove m; Frame; MouseUp].

(** * Properties *)

(** ** Rounding *)

(** [Math_round q] is the integer nearest to [q], the upper one of the two
    when [q] lies half way between them. *)
Lemma Math_round_nearest (q : Q) :
  (q - (1 # 2) < inject_Z (Math_round q) /\
   inject_Z (Math_round q) <= q + (1 # 2))%Q.
Proof.
  unfold Math_round. split.
  - pose proof (Qlt_floor (q + (1 # 2))) as H.
    rewrite inject_Z_plus in H.
    apply (Qplus_lt_l _ _ 1).
    setoid_replace (q - (1 # 2) + 1)%Q with (q + (1 # 2))%Q by ring.
    exact H.
  - apply Qfloor_le.
Qed.

Lemma Math_round_half (n : Z) :
  Math_round (inject_Z n / inject_Z 2) = (n + 1) / 2.
Proof.
  unfold Math_round, Qfloor, Qplus, Qdiv, Qmult, Qinv, inject_Z; simpl.
  replace (n * 1 * 2 + 2) with (2 * (n + 1)) by lia.
  change 4 with (2 * 2).
  apply Z.div_mul_cancel_l; lia.
Qed.

Lemma moveTop_of_spec (d : Z) : moveTop_of d = spec_step d.
Proof.
  unfold moveTop_of, spec_step, threshold, spec_deadzone, speed, spec_speed.
  now rewrite !Z.gtb_ltb.
Qed.

Lemma moveLeft_of_spec (d : Z) : moveLeft_of d = spec_step d.
Proof.
  unfold moveLeft_of, spec_step, threshold, spec_deadzone, speed, spec_speed.
  now rewrite !Z.gtb_ltb.
Qed.

(** The step in integers: half the excess over the deadzone, a tie going
    towards plus infinity. *)
Lemma spec_step_closed (d : Z) :
  spec_step d =
  if Z.ltb 5 d then (d - 4) / 2
  else if Z.ltb d (-5) then (d + 6) / 2
  else 0.
Proof.
  unfold spec_step, spec_deadzone, spec_speed.
  rewrite !Math_round_half.
  change (Z.opp 5) with (-5).
  destruct (Z.ltb 5 d); [f_equal; lia|].
  destruct (Z.ltb d (-5)); [f_equal; lia|reflexivity].
Qed.

Lemma spec_step_sign (d : Z) :
  (5 < d -> 0 < spec_step d) /\
  (d < -6 -> spec_step d < 0) /\
  (-6 <= d <= 5 -> spec_step d = 0).
Proof.
  rewrite spec_step_closed.
  repeat split; intros H.
  - destruct (Z.ltb_spec 5 d); [|lia].
    apply Z.div_str_pos; lia.
  - destruct (Z.ltb_spec 5 d); [lia|].
    destruct (Z.ltb_spec d (-5)); [|lia].
    apply Z.div_lt_upper_bound; lia.
  - destruct (Z.ltb_spec 5 d); [lia|].
    destruct (Z.ltb_spec d (-5)); [|reflexivity].
    assert (d = -6) as -> by lia. reflexivity.
Qed.

(** ** One tick *)

Arguments moveTop_of : simpl never.
Arguments moveLeft_of : simpl never.
Arguments direction_of : simpl never.

Ltac destruct_world w :=
  destruct w as [[? ? ? ? ? ? ? ? ?] [? ? ? ? ?] [? ?]].

(** *** A tick with both samples set *)

Lemma direction_of_cases (moveTop moveLeft : Z) :
  exists v hz : string,
    direction_of moveTop moveLeft = String.append v hz /\
    (moveTop < 0 -> v = "n"%string) /\
    (moveTop > 0 -> v = "s"%string) /\
    (moveTop = 0 -> v = EmptyString) /\
    (moveLeft < 0 -> hz = "w"%string) /\
    (moveLeft > 0 -> hz = "e"%string) /\
    (moveLeft = 0 -> hz = EmptyString) /\
    In (String.append v hz)
       ["n"; "s"; "w"; "e"; "nw"; "ne"; "sw"; "se"; EmptyString]%string.
Proof.
  unfold direction_of.
  destruct (Z.ltb_spec moveTop 0) as [Ht|Ht];
    [|destruct (Z.gtb_spec moveTop 0) as [Ht'|Ht']];
    (destruct (Z.ltb_spec moveLeft 0) as [Hl|Hl];
      [|destruct (Z.gtb_spec moveLeft 0) as [Hl'|Hl']]);
    eexists _, _; (split; [reflexivity|]);
    repeat split; intros; try reflexivity; try lia;
    cbn; tauto.
Qed.

Section Tick.

Variable w : World.
Variables cX cY aX aY : Z.
Hypothesis HcX : currentX (ctl w) = Some cX.
Hypothesis HcY : currentY (ctl w) = Some cY.
Hypothesis HaX : x (ctl w) = Some aX.
Hypothesis HaY : y (ctl w) = Some aY.

(** The world the tick leaves, field by field. *)
Lemma scrollPane_set :
  let moveTop := moveTop_of (cY - aY) in
  let moveLeft := moveLeft_of (cX - aX) in
  let direction := direction_of moveTop moveLeft in
  scrollPane w =
  {| ctl := {| moving :=
                 moving (ctl w) || negb (direction =? EmptyString)%string;
               scrolling := scrolling (ctl w);
               currentX := Some cX; currentY := Some cY;
               x := Some aX; y := Some aY;
               animationFrameId := Some (nextHandle (win w));
               dot := dot (ctl w); disposed := disposed (ctl w) |};
     win := {| mousemoveListener := mousemoveListener (win w);
               scrollDirection := Some direction;
               scrollClass := scrollClass (win w);
               frameCallbacks := frameCallbacks (win w) ++ [nextHandle (win w)];
               nextHandle := S (nextHandle (win w)) |};
     view := {| scrollTop := scrollTop (view w) + moveTop;
                scrollLeft := scrollLeft (view w) + moveLeft |} |}.
Proof.
  unfold scrollPane. rewrite HcX, HcY, HaX, HaY.
  cbn zeta.
  rewrite <- HcX, <- HcY, <- HaX, <- HaY.
  destruct (negb (direction_of _ _ =? _)%string);
    rewrite ?orb_true_r, ?orb_false_r; reflexivity.
Qed.

Lemma scrollPane_offsets :
  scrollTop (view (scrollPane w)) = scrollTop (view w) + spec_step (cY - aY) /\
  scrollLeft (view (scrollPane w)) = scrollLeft (view w) + spec_step (cX - aX).
Proof.
  rewrite scrollPane_set; cbn.
  now rewrite moveTop_of_spec, moveLeft_of_spec.
Qed.

(** C8.  On every frame tick with both samples set, where [moveTop] and
    [moveLeft] are the steps the tick applies, the direction code it
    publishes is ['n'] if [moveTop < 0], ['s'] if [moveTop > 0], else empty,
    followed by ['w'] if [moveLeft < 0], ['e'] if [moveLeft > 0], else empty;
    it is one of the nine strings; and [moving] becomes true when the code
    is not empty and keeps its value when the code is empty. *)
Theorem C8_direction_code :
  exists (moveTop moveLeft : Z) (v hz : string),
    scrollTop (view (scrollPane w)) = scrollTop (view w) + moveTop /\
    scrollLeft (view (scrollPane w)) = scrollLeft (view w) + moveLeft /\
    scrollDirection (win (scrollPane w)) = Some (String.append v hz) /\
    (moveTop < 0 -> v = "n"%string) /\
    (moveTop > 0 -> v = "s"%string) /\
    (moveTop = 0 -> v = EmptyString) /\
    (moveLeft < 0 -> hz = "w"%string) /\
    (moveLeft > 0 -> hz = "e"%string) /\
    (moveLeft = 0 -> hz = EmptyString) /\
    In (String.append v hz)
       ["n"; "s"; "w"; "e"; "nw"; "ne"; "sw"; "se"; EmptyString]%string /\
    (String.append v hz <> EmptyString ->
     moving (ctl (scrollPane w)) = true) /\
    (String.append v hz = EmptyString ->
     moving (ctl (scrollPane w)) = moving (ctl w)).
Proof.
  rewrite scrollPane_set; cbn.
  destruct (direction_of_cases (moveTop_of (cY - aY)) (moveLeft_of (cX - aX)))
    as (v & hz & Hd & Hn & Hs & Hv & Hw & He & Hh & Hin).
  exists (moveTop_of (cY - aY)), (moveLeft_of (cX - aX)), v, hz.
  rewrite Hd.
  repeat (split; [reflexivity || assumption|]).
  split.
  - intros Hne. apply String.eqb_neq in Hne. rewrite Hne.
    now rewrite orb_true_r.
  - intros He0. rewrite He0. now rewrite orb_false_r.
Qed.

End Tick.

Lemma C8_direction_code_witness :
  exists (moveTop moveLeft : Z) (v hz : string),
    scrollTop (view (scrollPane (session_at 117))) = 0 + moveTop /\
    scrollLeft (view (scrollPane (session_at 117))) = 0 + moveLeft /\
    scrollDirection (win (scrollPane (session_at 117))) =
      Some (String.append v hz) /\
    (moveTop < 0 -> v = "n"%string) /\
    (moveTop > 0 -> v = "s"%string) /\
    (moveTop = 0 -> v = EmptyString) /\
    (moveLeft < 0 -> hz = "w"%string) /\
    (moveLeft > 0 -> hz = "e"%string) /\
    (moveLeft = 0 -> hz = EmptyString) /\
    In (String.append v hz)
       ["n"; "s"; "w"; "e"; "nw"; "ne"; "sw"; "se"; EmptyString]%string /\
    (String.append v hz <> EmptyString ->
     moving (ctl (scrollPane (session_at 117))) = true) /\
    (String.append v hz = EmptyString ->
     moving (ctl (scrollPane (session_at 117))) = false).
Proof.
  apply (C8_direction_code (session_at 117) 100 117 100 100); reflexivity.
Defined.

Lemma scrollPane_absent (w : World) :
  samples_set w = false -> scrollPane w = w.
Proof.
  unfold samples_set, scrollPane.
  destruct (currentX (ctl w)), (currentY (ctl w)), (x (ctl w)), (y (ctl w));
    intros H; try discriminate H; reflexivity.
Qed.

Lemma samples_set_inv (w : World) :
  samples_set w = true ->
  exists cX cY aX aY,
    currentX (ctl w) = Some cX /\ currentY (ctl w) = Some cY /\
    x (ctl w) = Some aX /\ y (ctl w) = Some aY.
Proof.
  unfold samples_set.
  destruct (currentX (ctl w)) as [cX|], (currentY (ctl w)) as [cY|],
    (x (ctl w)) as [aX|], (y (ctl w)) as [aY|]; intros H; try discriminate H.
  now exists cX, cY, aX, aY.
Qed.

Lemma scrollPane_scrolling (w : World) :
  scrolling (ctl (scrollPane w)) = scrolling (ctl w).
Proof.
  destruct (samples_set w) eqn:E.
  - destruct (samples_set_inv w E) as (cX & cY & aX & aY & H1 & H2 & H3 & H4).
    now rewrite (scrollPane_set w cX cY aX aY H1 H2 H3 H4).
  - now rewrite scrollPane_absent.
Qed.

Lemma scrollPane_moving (w : World) :
  moving (ctl (scrollPane w)) = moving (ctl w) || tick_moves w.
Proof.
  destruct (samples_set w) eqn:E.
  - destruct (samples_set_inv w E) as (cX & cY & aX & aY & H1 & H2 & H3 & H4).
    rewrite (scrollPane_set w cX cY aX aY H1 H2 H3 H4); cbn.
    unfold tick_moves, tick_direction. now rewrite H1, H2, H3, H4.
  - rewrite scrollPane_absent by assumption.
    unfold tick_moves, tick_direction. unfold samples_set in E.
    destruct (currentX (ctl w)), (currentY (ctl w)), (x (ctl w)), (y (ctl w));
      try discriminate E; now rewrite orb_false_r.
Qed.

(** ** Frames *)

Lemma runAnimationFrame_none (w : World) :
  frameCallbacks (win w) = [] -> runAnimationFrame w = w.
Proof. unfold runAnimationFrame. now intros ->. Qed.

Lemma runAnimationFrame_single (w : World) (h : nat) :
  frameCallbacks (win w) = [h] ->
  runAnimationFrame w = scrollPane (set_frameCallbacks [] w).
Proof.
  unfold runAnimationFrame, fireFrame, cancelAnimationFrame.
  intros H; rewrite H; cbn; rewrite H; cbn.
  now rewrite Nat.eqb_refl.
Qed.

(** ** The shape of reachable states *)

Lemma stopScroll_scrolling (w : World) : scrolling (ctl (stopScroll w)) = false.
Proof.
  destruct_world w; unfold stopScroll; cbn.
  destruct animationFrameId0, dot0; reflexivity.
Qed.

(** The world [stopScroll] leaves, field by field. *)
Lemma stopScroll_eq (w : World) :
  stopScroll w =
  {| ctl := {| moving := false; scrolling := false;
               currentX := currentX (ctl w); currentY := currentY (ctl w);
               x := x (ctl w); y := y (ctl w);
               animationFrameId := None;
               dot := option_map
                        (fun d => {| style_left := style_left d;
                                     style_top := style_top d;
                                     hidden := true |})
                        (dot (ctl w));
               disposed := disposed (ctl w) |};
     win := {| mousemoveListener := false;
               scrollDirection := None;
               scrollClass := false;
               frameCallbacks :=
                 match animationFrameId (ctl w) with
                 | Some h =>
                     filter (fun k => negb (Nat.eqb k h))
                       (frameCallbacks (win w))
                 | None => frameCallbacks (win w)
                 end;
               nextHandle := nextHandle (win w) |};
     view := view w |}.
Proof.
  destruct_world w; unfold stopScroll; cbn [ctl win view].
  destruct animationFrameId0, dot0; reflexivity.
Qed.

Lemma stopScroll_idle (w : World) :
  well_formed w -> idle_shape (stopScroll w).
Proof.
  rewrite stopScroll_eq.
  destruct_world w; unfold well_formed, idle_shape, scrolling_shape; cbn.
  destruct scrolling0.
  - intros (_ & _ & _ & _ & h & -> & ->); cbn.
    rewrite Nat.eqb_refl; cbn.
    repeat split.
    intros d H. destruct dot0; inversion H; reflexivity.
  - intros (-> & -> & -> & -> & -> & -> & Hd).
    repeat split.
    intros d H. destruct dot0; inversion H; reflexivity.
Qed.

Lemma stopScroll_well_formed (w : World) :
  well_formed w -> well_formed (stopScroll w).
Proof.
  intros H. unfold well_formed. rewrite stopScroll_scrolling.
  now apply stopScroll_idle.
Qed.

Lemma startScroll_scrolling (e : IMouseEvent) (w : World) :
  scrolling (ctl (startScroll e w)) = true.
Proof.
  unfold startScroll. rewrite scrollPane_scrolling.
  destruct (scrolling (ctl w)), (dot (ctl (set_scrollClass true _)));
    reflexivity.
Qed.

(** The world in which [startScroll], called while idle, runs its first
    tick. *)
Lemma startScroll_idle_eq (e : IMouseEvent) (w : World) :
  scrolling (ctl w) = false ->
  startScroll e w =
  scrollPane
    {| ctl := {| moving := false; scrolling := true;
                 currentX := Some (posx e); currentY := Some (posy e);
                 x := Some (posx e); y := Some (posy e);
                 animationFrameId := animationFrameId (ctl w);
                 dot := option_map
                          (fun _ => {| style_left := Some (posx e);
                                       style_top := Some (posy e);
                                       hidden := false |})
                          (dot (ctl w));
                 disposed := disposed (ctl w) |};
       win := {| mousemoveListener := true;
                 scrollDirection := scrollDirection (win w);
                 scrollClass := true;
                 frameCallbacks := frameCallbacks (win w);
                 nextHandle := nextHandle (win w) |};
       view := view w |}.
Proof.
  intros Hs. unfold startScroll. rewrite Hs. f_equal.
  destruct_world w. cbn [ctl win view] in *.
  destruct dot0; reflexivity.
Qed.

Lemma startScroll_shape (e : IMouseEvent) (w : World) :
  scrolling (ctl w) = false -> disposed (ctl w) = false -> idle_shape w ->
  scrolling_shape (startScroll e w).
Proof.
  intros Hs Hd (_ & Hid & Hfc & _).
  rewrite (startScroll_idle_eq e w Hs).
  erewrite scrollPane_set by reflexivity.
  unfold scrolling_shape, samples_set; cbn [ctl win view currentX currentY x y
    disposed mousemoveListener scrollClass animationFrameId frameCallbacks].
  rewrite Hfc.
  repeat split; try assumption.
  eexists; split; reflexivity.
Qed.

Lemma scrollPane_shape (w : World) :
  scrolling_shape w ->
  scrolling_shape (scrollPane (set_frameCallbacks [] w)).
Proof.
  intros (Hd & Hs & Hm & Hc & h & Hh & Hf).
  destruct (samples_set_inv w Hs) as (cX & cY & aX & aY & H1 & H2 & H3 & H4).
  rewrite (scrollPane_set (set_frameCallbacks [] w) cX cY aX aY)
    by (destruct_world w; assumption).
  unfold scrolling_shape, samples_set; cbn.
  repeat split; try assumption.
  eexists; split; reflexivity.
Qed.

Lemma deliver_well_formed (w : World) (ev : Event) :
  well_formed w -> well_formed (deliver w ev).
Proof.
  intros Hw. destruct ev as [e| |e| |t l|]; cbn.
  - (* MouseDown *)
    destruct (disposed (ctl w)) eqn:Hdis; [assumption|].
    unfold windowMouseDown.
    destruct (scrolling (ctl w)) eqn:Hsc; [now apply stopScroll_well_formed|].
    assert (Hc : well_formed
                   match dot (ctl w) with
                   | Some _ => w
                   | None => createDot w
                   end /\
                 scrolling (ctl match dot (ctl w) with
                                | Some _ => w
                                | None => createDot w
                                end) = false /\
                 disposed (ctl match dot (ctl w) with
                               | Some _ => w
                               | None => createDot w
                               end) = false).
    { destruct (dot (ctl w)) eqn:Hdot; [now repeat split|].
      destruct_world w; cbn in *; subst.
      unfold well_formed, idle_shape in *; cbn in *.
      repeat split; try apply Hw.
      intros d H; inversion H; reflexivity. }
    destruct Hc as (Hc1 & Hc2 & Hc3).
    destruct (middleButton e); [|assumption].
    unfold well_formed in *. rewrite startScroll_scrolling.
    rewrite Hc2 in Hc1. now apply startScroll_shape.
  - (* MouseUp *)
    destruct (disposed (ctl w)); [assumption|].
    unfold windowMouseUp.
    destruct (moving (ctl w)); [now apply stopScroll_well_formed|assumption].
  - (* MouseMove *)
    destruct (mousemoveListener (win w)) eqn:Hl; [|assumption].
    destruct_world w; unfold well_formed, idle_shape, scrolling_shape,
      samples_set in *; cbn in *.
    destruct scrolling0.
    + destruct Hw as (? & Hs & ? & ? & ?).
      destruct currentX0, currentY0, x0, y0; try discriminate Hs.
      repeat split; assumption.
    + destruct Hw as (_ & _ & _ & Hm & _). congruence.
  - (* Frame *)
    unfold well_formed in *.
    destruct (scrolling (ctl w)) eqn:Hsc.
    + destruct Hw as (Hd & Hs & Hm & Hc & h & Hh & Hf).
      rewrite (runAnimationFrame_single w h Hf).
      rewrite scrollPane_scrolling.
      replace (scrolling (ctl (set_frameCallbacks [] w))) with true
        by (destruct_world w; cbn in *; congruence).
      apply scrollPane_shape. repeat split; try assumption.
      now exists h.
    + rewrite runAnimationFrame_none by apply Hw.
      now rewrite Hsc.
  - (* Scrolled *)
    destruct_world w; exact Hw.
  - (* Dispose *)
    unfold dispose.
    destruct (disposed (ctl w)); [assumption|].
    pose proof (stopScroll_idle w Hw) as Hi.
    pose proof (stopScroll_scrolling w) as Hs.
    destruct (stopScroll w) as [[? ? ? ? ? ? ? ? ?] [? ? ? ? ?] [? ?]].
    unfold well_formed, idle_shape in *; cbn in *. subst.
    destruct dot0; cbn; repeat split; try apply Hi; intros d H; inversion H.
Qed.

Lemma initial_well_formed (top left : Z) : well_formed (initial top left).
Proof.
  unfold well_formed, idle_shape; cbn.
  repeat split; intros d H; inversion H.
Qed.

Lemma reachable_well_formed (w : World) : reachable w -> well_formed w.
Proof.
  induction 1 as [top left|w ev _ IH].
  - apply initial_well_formed.
  - now apply deliver_well_formed.
Qed.

Lemma run_reachable (w : World) (tr : list Event) :
  reachable w -> reachable (run w tr).
Proof.
  revert w. induction tr as [|ev tr IH]; intros w Hw; [exact Hw|].
  apply IH. now constructor.
Qed.

Lemma run_app (w : World) (tr1 tr2 : list Event) :
  run w (tr1 ++ tr2) = run (run w tr1) tr2.
Proof. apply fold_left_app. Qed.

(** ** The scroll step of a tick *)

(** C1.  On every frame tick while scrolling, with anchor [(aX, aY)] and
    current pointer [(cX, cY)], the vertical step is
    [round((diffY - deadzone) / speed)] when [diffY = cY - aY] exceeds the
    deadzone, [round((diffY + deadzone) / speed)] when it is below minus the
    deadzone and [0] otherwise ([spec_step], deadzone 5, speed 2), the
    horizontal step is the same function of [cX - aX], and the tick sets the
    scroll offsets to the offsets read at its start plus the steps.  This
    holds of [scrollPane] called in any state with both samples set, and of
    the frame the scheduler runs in a reachable scrolling state. *)
Theorem C1_scroll_step (w : World) (cX cY aX aY : Z) :
  currentX (ctl w) = Some cX -> currentY (ctl w) = Some cY ->
  x (ctl w) = Some aX -> y (ctl w) = Some aY ->
  (scrollTop (view (scrollPane w)) = scrollTop (view w) + spec_step (cY - aY) /\
   scrollLeft (view (scrollPane w)) =
     scrollLeft (view w) + spec_step (cX - aX)) /\
  (reachable w -> scrolling (ctl w) = true ->
   scrollTop (view (deliver w Frame)) =
     scrollTop (view w) + spec_step (cY - aY) /\
   scrollLeft (view (deliver w Frame)) =
     scrollLeft (view w) + spec_step (cX - aX)).
Proof.
  intros H1 H2 H3 H4. split.
  - now apply scrollPane_offsets.
  - intros Hr Hs.
    pose proof (reachable_well_formed w Hr) as Hw.
    unfold well_formed in Hw. rewrite Hs in Hw.
    destruct Hw as (_ & _ & _ & _ & h & _ & Hf).
    cbn. rewrite (runAnimationFrame_single w h Hf).
    apply (scrollPane_offsets (set_frameCallbacks [] w));
      destruct_world w; assumption.
Qed.

Lemma C1_scroll_step_witness :
  (scrollTop (view (scrollPane (session_at 117))) = 0 + spec_step (117 - 100) /\
   scrollLeft (view (scrollPane (session_at 117))) =
     0 + spec_step (100 - 100)) /\
  (reachable (session_at 117) -> scrolling (ctl (session_at 117)) = true ->
   scrollTop (view (deliver (session_at 117) Frame)) =
     0 + spec_step (117 - 100) /\
   scrollLeft (view (deliver (session_at 117) Frame)) =
     0 + spec_step (100 - 100)).
Proof.
  apply (C1_scroll_step (session_at 117) 100 117 100 100); reflexivity.
Defined.

(** ** Inside the deadzone and at its edges *)

(** C9.  When anchor and current pointer coincide, a tick computes
    [moveLeft = 0] and [moveTop = 0], publishes the empty direction code and
    leaves the scroll offsets (and [moving]) as they were. *)
Theorem C9_no_displacement (w : World) (px py : Z) :
  currentX (ctl w) = Some px -> currentY (ctl w) = Some py ->
  x (ctl w) = Some px -> y (ctl w) = Some py ->
  moveLeft_of (px - px) = 0 /\
  moveTop_of (py - py) = 0 /\
  tick_direction w = Some EmptyString /\
  scrollDirection (win (scrollPane w)) = Some EmptyString /\
  view (scrollPane w) = view w /\
  moving (ctl (scrollPane w)) = moving (ctl w).
Proof.
  intros H1 H2 H3 H4.
  rewrite (scrollPane_set w px py px py H1 H2 H3 H4).
  unfold tick_direction. rewrite H1, H2, H3, H4.
  rewrite !Z.sub_diag.
  change (moveLeft_of 0) with 0. change (moveTop_of 0) with 0.
  change (direction_of 0 0) with EmptyString. cbn.
  rewrite !Z.add_0_r, orb_false_r.
  repeat split. now destruct (view w).
Qed.

Lemma C9_no_displacement_witness :
  moveLeft_of (100 - 100) = 0 /\
  moveTop_of (100 - 100) = 0 /\
  tick_direction (session_at 100) = Some EmptyString /\
  scrollDirection (win (scrollPane (session_at 100))) = Some EmptyString /\
  view (scrollPane (session_at 100)) = view (session_at 100) /\
  moving (ctl (scrollPane (session_at 100))) = moving (ctl (session_at 100)).
Proof.
  apply (C9_no_displacement (session_at 100) 100 100); reflexivity.
Defined.

(** C4, as stated, fails in its second half: with anchor y = 100 and current
    y = 94 the tick computes [Math.round(-0.5)], which is (minus) zero, so
    the published direction code is empty and does not include ['n']. *)
Lemma C4_threshold_edge_counterexample :
  ~ (exists d, scrollDirection (win (deliver (session_at 94) Frame)) = Some d /\
               includes "n" d = true).
Proof.
  intros (d & Hd & Hn).
  vm_compute in Hd. inversion Hd; subst d.
  vm_compute in Hn. discriminate Hn.
Qed.

(** C4, amended.  With deadzone 5 and speed 2, anchor y = 100: for current
    y = 106 the tick computes [moveTop = round(0.5) = 1], [scrollTop] grows
    by 1 and the direction code includes ['s']; for current y = 94 it
    computes [moveTop = round(-0.5) = 0], [scrollTop] keeps its value and the
    direction code does not include ['n']. *)
Theorem C4_threshold_edge (w : World) (cX aX : Z) :
  currentX (ctl w) = Some cX -> x (ctl w) = Some aX ->
  let down := set_currentY (Some 106) (set_y (Some 100) w) in
  let up := set_currentY (Some 94) (set_y (Some 100) w) in
  (moveTop_of (106 - 100) = Math_round (1 # 2) /\
   Math_round (1 # 2) = 1 /\
   scrollTop (view (scrollPane down)) = scrollTop (view w) + 1 /\
   exists d, scrollDirection (win (scrollPane down)) = Some d /\
             includes "s" d = true) /\
  (moveTop_of (94 - 100) = Math_round (-1 # 2) /\
   Math_round (-1 # 2) = 0 /\
   scrollTop (view (scrollPane up)) = scrollTop (view w) /\
   exists d, scrollDirection (win (scrollPane up)) = Some d /\
             includes "n" d = false).
Proof.
  intros H1 H3 down up.
  assert (Hdown : scrollTop (view down) = scrollTop (view w))
    by (subst down; destruct_world w; reflexivity).
  assert (Hup : scrollTop (view up) = scrollTop (view w))
    by (subst up; destruct_world w; reflexivity).
  split; (split; [reflexivity|]); (split; [reflexivity|]).
  - rewrite (scrollPane_set down cX 106 aX 100)
      by (subst down; destruct_world w; cbn in *; congruence).
    cbn [view win scrollTop scrollDirection].
    change (moveTop_of (106 - 100)) with 1.
    split; [now rewrite Hdown|].
    eexists; split; [reflexivity|].
    destruct (direction_of_cases 1 (moveLeft_of (cX - aX)))
      as (v & hz & Hd & _ & Hs & _ & _ & _ & _ & _).
    rewrite Hd, Hs by lia. reflexivity.
  - rewrite (scrollPane_set up cX 94 aX 100)
      by (subst up; destruct_world w; cbn in *; congruence).
    cbn [view win scrollTop scrollDirection].
    change (moveTop_of (94 - 100)) with 0.
    split; [now rewrite Hup, Z.add_0_r|].
    eexists; split; [reflexivity|].
    destruct (direction_of_cases 0 (moveLeft_of (cX - aX)))
      as (v & hz & Hd & _ & _ & Hv & Hw & He & Hh & _).
    rewrite Hd, Hv by reflexivity.
    destruct (Z.lt_trichotomy (moveLeft_of (cX - aX)) 0) as [Hl|[Hl|Hl]].
    + now rewrite Hw.
    + now rewrite Hh.
    + now rewrite He by lia.
Qed.

Lemma C4_threshold_edge_witness :
  let w := session_at 100 in
  let down := set_currentY (Some 106) (set_y (Some 100) w) in
  let up := set_currentY (Some 94) (set_y (Some 100) w) in
  (moveTop_of (106 - 100) = Math_round (1 # 2) /\
   Math_round (1 # 2) = 1 /\
   scrollTop (view (scrollPane down)) = scrollTop (view w) + 1 /\
   exists d, scrollDirection (win (scrollPane down)) = Some d /\
             includes "s" d = true) /\
  (moveTop_of (94 - 100) = Math_round (-1 # 2) /\
   Math_round (-1 # 2) = 0 /\
   scrollTop (view (scrollPane up)) = scrollTop (view w) /\
   exists d, scrollDirection (win (scrollPane up)) = Some d /\
             includes "n" d = false).
Proof.
  apply (C4_threshold_edge (session_at 100) 100 100); reflexivity.
Defined.

(** ** Rescheduling *)

(** C7, as stated, fails: a tick that finds a sample absent returns at once
    and requests no frame, also while [scrolling] is set. *)
Lemma C7_reschedule_counterexample :
  let w := set_scrolling true (initial 0 0) in
  scrolling (ctl w) = true /\
  samples_set w = false /\
  animationFrameId (ctl (scrollPane w)) = None /\
  frameCallbacks (win (scrollPane w)) = [].
Proof. repeat split. Qed.

(** C7, amended.  A tick with both samples set requests the next frame
    under a fresh handle and records it in [animationFrameId]; a tick with a
    sample absent leaves the world as it is, and so requests nothing; in
    every reachable scrolling state both samples are set, and the frame the
    scheduler runs leaves exactly one callback queued, the controller still
    scrolling. *)
Theorem C7_reschedule :
  (forall w, samples_set w = true ->
     animationFrameId (ctl (scrollPane w)) = Some (nextHandle (win w)) /\
     frameCallbacks (win (scrollPane w)) =
       frameCallbacks (win w) ++ [nextHandle (win w)]) /\
  (forall w, samples_set w = false -> scrollPane w = w) /\
  (forall w, reachable w -> scrolling (ctl w) = true ->
     samples_set w = true /\
     scrolling (ctl (deliver w Frame)) = true /\
     exists h, animationFrameId (ctl (deliver w Frame)) = Some h /\
               frameCallbacks (win (deliver w Frame)) = [h]).
Proof.
  split; [|split].
  - intros w Hs.
    destruct (samples_set_inv w Hs) as (cX & cY & aX & aY & H1 & H2 & H3 & H4).
    rewrite (scrollPane_set w cX cY aX aY H1 H2 H3 H4). now split.
  - apply scrollPane_absent.
  - intros w Hr Hs.
    pose proof (reachable_well_formed w Hr) as Hw.
    pose proof (deliver_well_formed w Frame Hw) as Hw'.
    unfold well_formed in Hw, Hw'. rewrite Hs in Hw.
    assert (Hs' : scrolling (ctl (deliver w Frame)) = true).
    { destruct Hw as (_ & _ & _ & _ & h & _ & Hf). cbn.
      rewrite (runAnimationFrame_single w h Hf), scrollPane_scrolling.
      destruct_world w; exact Hs. }
    rewrite Hs' in Hw'.
    split; [apply Hw|]. split; [exact Hs'|]. apply Hw'.
Qed.

Lemma C7_reschedule_witness :
  (animationFrameId (ctl (scrollPane (session_at 117))) = Some 2%nat /\
   frameCallbacks (win (scrollPane (session_at 117))) = [1; 2]%nat) /\
  scrollPane (initial 0 0) = initial 0 0 /\
  (samples_set (session_at 117) = true /\
   scrolling (ctl (deliver (session_at 117) Frame)) = true /\
   exists h, animationFrameId (ctl (deliver (session_at 117) Frame)) = Some h /\
             frameCallbacks (win (deliver (session_at 117) Frame)) = [h]).
Proof.
  destruct C7_reschedule as (Hset & Habsent & Hloop).
  split; [|split].
  - apply (Hset (session_at 117)). reflexivity.
  - apply (Habsent (initial 0 0)). reflexivity.
  - apply (Hloop (session_at 117)); [|reflexivity].
    unfold session_at. apply run_reachable. constructor.
Defined.

(** ** Stopping *)

Lemma dispose_shape (w : World) :
  well_formed w ->
  scrolling (ctl (dispose w)) = false /\
  disposed (ctl (dispose w)) = true /\
  idle_shape (dispose w).
Proof.
  intros Hw. unfold dispose.
  destruct (disposed (ctl w)) eqn:Hd.
  - unfold well_formed, scrolling_shape in Hw.
    destruct (scrolling (ctl w)).
    + destruct Hw as (Hd' & _). congruence.
    + split; [reflexivity|]. split; [exact Hd|]. exact Hw.
  - pose proof (stopScroll_idle w Hw) as Hi.
    pose proof (stopScroll_scrolling w) as Hs.
    destruct (stopScroll w) as [[? ? ? ? ? ? ? ? ?] [? ? ? ? ?] [? ?]].
    unfold idle_shape in *; cbn [ctl win view] in *.
    destruct dot0; cbn in *; (split; [assumption|]); (split; [reflexivity|]);
      repeat split; try apply Hi; intros d H; inversion H.
Qed.

(** In an idle well-formed state nothing is queued, tracked or recorded, so
    frames, moves and releases change nothing. *)
Lemma idle_passive (w : World) (ev : Event) :
  scrolling (ctl w) = false -> well_formed w -> passive ev = true ->
  deliver w ev = w.
Proof.
  intros Hs Hw Hp. unfold well_formed in Hw. rewrite Hs in Hw.
  destruct Hw as (Hm & _ & Hf & Hl & _).
  destruct ev as [e| |e| |t l|]; try discriminate Hp; cbn.
  - unfold windowMouseUp. rewrite Hm. now destruct (disposed (ctl w)).
  - now rewrite Hl.
  - now apply runAnimationFrame_none.
Qed.

Lemma disposed_own_event (w : World) (ev : Event) :
  scrolling (ctl w) = false -> disposed (ctl w) = true -> well_formed w ->
  own_event ev = true ->
  deliver w ev = w.
Proof.
  intros Hs Hd Hw Ho.
  destruct ev as [e| |e| |t l|]; try discriminate Ho;
    try (apply idle_passive; [assumption|assumption|reflexivity]); cbn.
  - now rewrite Hd.
  - unfold dispose. now rewrite Hd.
Qed.

Lemma run_fixed (P : Event -> bool) (w : World) (tr : list Event) :
  (forall ev, P ev = true -> deliver w ev = w) ->
  Forall (fun ev => P ev = true) tr ->
  run w tr = w.
Proof.
  intros Hfix. induction 1 as [|ev tr Hev _ IH]; [reflexivity|].
  cbn. rewrite (Hfix ev Hev). exact IH.
Qed.

(** C5, as stated, fails in its last part: [scrollPane] does not look at
    [scrolling], so a frame callback that is run after [stopScroll], or after
    disposal, with the pointer away from the anchor scrolls the viewport. *)
Lemma C5_stray_frame_counterexample :
  view (scrollPane (stopScroll (session_at 200))) <>
    view (stopScroll (session_at 200)) /\
  view (scrollPane (dispose (session_at 200))) <>
    view (dispose (session_at 200)).
Proof. split; vm_compute; discriminate. Qed.

(** C5, amended.  When [stopScroll] returns in a reachable state, also when
    disposal called it, the queued frame callback has been cancelled (the
    queue is empty and [animationFrameId] is null) and the move listener is
    removed; from then on no frame, move or release the host delivers changes
    anything, and after disposal no event of the controller's does.  (What a
    frame callback run in spite of the cancellation does is left out.) *)
Theorem C5_stop_quiesces (w : World) :
  reachable w ->
  (animationFrameId (ctl (stopScroll w)) = None /\
   frameCallbacks (win (stopScroll w)) = [] /\
   mousemoveListener (win (stopScroll w)) = false /\
   forall tr, Forall (fun ev => passive ev = true) tr ->
              run (stopScroll w) tr = stopScroll w) /\
  (animationFrameId (ctl (dispose w)) = None /\
   frameCallbacks (win (dispose w)) = [] /\
   mousemoveListener (win (dispose w)) = false /\
   forall tr, Forall (fun ev => own_event ev = true) tr ->
              run (dispose w) tr = dispose w).
Proof.
  intros Hr. pose proof (reachable_well_formed w Hr) as Hw. split.
  - pose proof (stopScroll_idle w Hw) as Hi.
    repeat split; try apply Hi.
    intros tr Htr. apply (run_fixed passive); [|exact Htr].
    intros ev Hev. apply idle_passive; [apply stopScroll_scrolling| |exact Hev].
    now apply stopScroll_well_formed.
  - destruct (dispose_shape w Hw) as (Hs & Hd & Hi).
    repeat split; try apply Hi.
    intros tr Htr. apply (run_fixed own_event); [|exact Htr].
    intros ev Hev. apply disposed_own_event; try assumption.
    unfold well_formed. now rewrite Hs.
Qed.

Lemma C5_stop_quiesces_witness :
  let w := deliver (session_at 200) Frame in
  (animationFrameId (ctl (stopScroll w)) = None /\
   frameCallbacks (win (stopScroll w)) = [] /\
   mousemoveListener (win (stopScroll w)) = false /\
   forall tr, Forall (fun ev => passive ev = true) tr ->
              run (stopScroll w) tr = stopScroll w) /\
  (animationFrameId (ctl (dispose w)) = None /\
   frameCallbacks (win (dispose w)) = [] /\
   mousemoveListener (win (dispose w)) = false /\
   forall tr, Forall (fun ev => own_event ev = true) tr ->
              run (dispose w) tr = dispose w).
Proof.
  apply (C5_stop_quiesces (deliver (session_at 200) Frame)).
  constructor. unfold session_at. apply run_reachable. constructor.
Defined.

(** C6.  [stopScroll] is total and idempotent in every state: a second call
    right after the first changes nothing; and called in a reachable idle
    state it changes nothing at all. *)
Theorem C6_stop_idempotent :
  (forall w, stopScroll (stopScroll w) = stopScroll w) /\
  (forall w, reachable w -> scrolling (ctl w) = false -> stopScroll w = w).
Proof.
  split.
  - intros w. rewrite (stopScroll_eq (stopScroll w)).
    rewrite (stopScroll_eq w). cbn [ctl win view currentX currentY x y dot
      disposed animationFrameId frameCallbacks nextHandle].
    now destruct (dot (ctl w)).
  - intros w Hr Hs.
    pose proof (reachable_well_formed w Hr) as Hw.
    unfold well_formed in Hw. rewrite Hs in Hw.
    rewrite stopScroll_eq.
    destruct_world w. unfold idle_shape in Hw. cbn [ctl win view moving
      scrolling animationFrameId frameCallbacks mousemoveListener
      scrollDirection scrollClass dot currentX currentY x y disposed
      nextHandle] in *.
    destruct Hw as (-> & -> & -> & -> & -> & -> & Hd). subst.
    destruct dot0 as [[dl dt dh]|]; [|reflexivity].
    cbn. specialize (Hd _ eq_refl). cbn in Hd. now subst.
Qed.

Lemma C6_stop_idempotent_witness :
  stopScroll (stopScroll (session_at 200)) = stopScroll (session_at 200) /\
  stopScroll (run (session_at 200) [MouseDown (middle_at 1 1)]) =
    run (session_at 200) [MouseDown (middle_at 1 1)].
Proof.
  destruct C6_stop_idempotent as (Htwice & Hidle). split.
  - apply Htwice.
  - apply Hidle; [|reflexivity].
    apply run_reachable. unfold session_at. apply run_reachable. constructor.
Defined.

(** ** Idle means nothing scheduled and nothing recorded *)

Lemma well_formed_idle_clear (w : World) :
  well_formed w -> idle_implies_clear w.
Proof.
  unfold well_formed, idle_implies_clear. intros Hw Hs.
  rewrite Hs in Hw. split; apply Hw.
Qed.

Lemma stopScroll_idle_clear (w : World) : idle_implies_clear (stopScroll w).
Proof. intros _. now rewrite stopScroll_eq. Qed.

Lemma startScroll_idle_clear (e : IMouseEvent) (w : World) :
  idle_implies_clear (startScroll e w).
Proof. intros H. rewrite startScroll_scrolling in H. discriminate H. Qed.

Lemma windowMouseDown_idle_clear (e : IMouseEvent) (w : World) :
  idle_implies_clear w -> idle_implies_clear (windowMouseDown e w).
Proof.
  intros Hw. unfold windowMouseDown.
  destruct (scrolling (ctl w)) eqn:Hs; [apply stopScroll_idle_clear|].
  destruct (middleButton e); [apply startScroll_idle_clear|].
  destruct (dot (ctl w)); [exact Hw|].
  destruct_world w. exact Hw.
Qed.

Lemma windowMouseUp_idle_clear (w : World) :
  idle_implies_clear w -> idle_implies_clear (windowMouseUp w).
Proof.
  intros Hw. unfold windowMouseUp.
  destruct (moving (ctl w)); [apply stopScroll_idle_clear|exact Hw].
Qed.

(** C10, as stated, fails for the tick: [scrollPane] does not look at
    [scrolling], so called in a reachable idle state whose samples a
    finished session has left behind, with the pointer away from the anchor,
    it sets [animationFrameId] and [moving] while [scrolling] stays
    false. *)
Lemma C10_idle_invariant_counterexample :
  let w := run (initial 0 0)
             [MouseDown (middle_at 100 100); MouseMove (move_to 100 200);
              MouseDown (middle_at 1 1)] in
  reachable w /\
  idle_implies_clear w /\
  scrolling (ctl (scrollPane w)) = false /\
  animationFrameId (ctl (scrollPane w)) = Some 2%nat /\
  moving (ctl (scrollPane w)) = true /\
  ~ idle_implies_clear (scrollPane w).
Proof.
  intros w. split; [apply run_reachable; constructor|].
  split; [intros _; split; reflexivity|].
  repeat (split; [reflexivity|]).
  intros H. destruct (H eq_refl) as (Hid & _). discriminate Hid.
Qed.

(** C10, amended.  In every reachable state, [scrolling == false] implies
    [animationFrameId == null] and [moving == false].  Start, stop,
    mouse-down and mouse-up preserve this from any state that has it, and
    every event the host delivers in a reachable state preserves it, the
    frames the scheduler runs included.  The tick itself preserves it
    exactly when the controller is scrolling or a sample is absent: called
    while idle with both samples set, it sets [animationFrameId]. *)
Theorem C10_idle_invariant :
  (forall w, reachable w -> idle_implies_clear w) /\
  (forall w e, idle_implies_clear w ->
     idle_implies_clear (startScroll e w) /\
     idle_implies_clear (stopScroll w) /\
     idle_implies_clear (windowMouseDown e w) /\
     idle_implies_clear (windowMouseUp w)) /\
  (forall w ev, reachable w -> idle_implies_clear (deliver w ev)) /\
  (forall w, idle_implies_clear w ->
     (idle_implies_clear (scrollPane w) <->
      scrolling (ctl w) = true \/ samples_set w = false)).
Proof.
  split; [|split; [|split]].
  - intros w Hr. now apply well_formed_idle_clear, reachable_well_formed.
  - intros w e Hw.
    split; [apply startScroll_idle_clear|].
    split; [apply stopScroll_idle_clear|].
    split; [now apply windowMouseDown_idle_clear|].
    now apply windowMouseUp_idle_clear.
  - intros w ev Hr.
    now apply well_formed_idle_clear, deliver_well_formed,
      reachable_well_formed.
  - intros w Hw. split.
    + intros Hp.
      destruct (scrolling (ctl w)) eqn:Hs; [now left|right].
      destruct (samples_set w) eqn:E; [exfalso|reflexivity].
      assert (Hs' : scrolling (ctl (scrollPane w)) = false)
        by now rewrite scrollPane_scrolling.
      destruct (Hp Hs') as (Hid & _).
      destruct (samples_set_inv w E) as (cX & cY & aX & aY & H1 & H2 & H3 & H4).
      rewrite (scrollPane_set w cX cY aX aY H1 H2 H3 H4) in Hid.
      discriminate Hid.
    + intros [Hs|E].
      * intros H. rewrite scrollPane_scrolling in H. congruence.
      * now rewrite scrollPane_absent.
Qed.

Lemma C10_idle_invariant_witness :
  idle_implies_clear (run (session_at 200) [Frame; MouseUp]) /\
  idle_implies_clear (windowMouseDown (middle_at 3 4) (initial 0 0)) /\
  idle_implies_clear (deliver (session_at 200) Frame) /\
  (idle_implies_clear (scrollPane (initial 0 0)) <->
   scrolling (ctl (initial 0 0)) = true \/ samples_set (initial 0 0) = false).
Proof.
  destruct C10_idle_invariant as (Hreach & Hops & Hdel & Htick).
  split; [|split; [|split]].
  - apply Hreach. apply run_reachable. unfold session_at.
    apply run_reachable. constructor.
  - apply (Hops (initial 0 0) (middle_at 3 4)).
    intros _. split; reflexivity.
  - apply Hdel. unfold session_at. apply run_reachable. constructor.
  - apply (Htick (initial 0 0)). intros _. split; reflexivity.
Defined.

(** ** Starts and stops *)

Lemma runAnimationFrame_scrolling (w : World) :
  well_formed w ->
  scrolling (ctl (runAnimationFrame w)) = scrolling (ctl w).
Proof.
  intros Hw. unfold well_formed in Hw.
  destruct (scrolling (ctl w)) eqn:Hs.
  - destruct Hw as (_ & _ & _ & _ & h & _ & Hf).
    rewrite (runAnimationFrame_single w h Hf), scrollPane_scrolling.
    destruct_world w; exact Hs.
  - rewrite runAnimationFrame_none by apply Hw. exact Hs.
Qed.

Lemma createDot_scrolling (w : World) :
  scrolling (ctl match dot (ctl w) with
                 | None => createDot w
                 | Some _ => w
                 end) = scrolling (ctl w).
Proof. destruct_world w; cbn. now destruct dot0. Qed.

(** One event: the controller scrolls afterwards exactly if the event
    starts a session, or a session is running and the event does not stop
    it. *)
Lemma deliver_scrolling (w : World) (ev : Event) :
  well_formed w ->
  scrolling (ctl (deliver w ev)) =
  starts w ev || (scrolling (ctl w) && negb (stops w ev)).
Proof.
  intros Hw.
  assert (Hds : disposed (ctl w) = true -> scrolling (ctl w) = false).
  { intros Hd. unfold well_formed, scrolling_shape in Hw.
    destruct (scrolling (ctl w)); [|reflexivity].
    destruct Hw as (Hd' & _). congruence. }
  destruct ev as [e| |e| |t l|]; unfold stops; cbn.
  - destruct (disposed (ctl w)) eqn:Hd.
    + rewrite (Hds eq_refl). cbn. now rewrite andb_false_r.
    + unfold windowMouseDown.
      destruct (scrolling (ctl w)) eqn:Hs.
      * rewrite stopScroll_scrolling. now destruct (middleButton e).
      * destruct (middleButton e).
        -- now rewrite startScroll_scrolling.
        -- now rewrite createDot_scrolling, Hs.
  - destruct (disposed (ctl w)) eqn:Hd.
    + now rewrite (Hds eq_refl).
    + unfold windowMouseUp. destruct (moving (ctl w)).
      * rewrite stopScroll_scrolling. now rewrite andb_false_r.
      * now rewrite orb_false_r, andb_true_r.
  - rewrite andb_true_r.
    destruct (mousemoveListener (win w)); [|reflexivity].
    now destruct_world w.
  - rewrite andb_true_r. now apply runAnimationFrame_scrolling.
  - rewrite andb_true_r. now destruct_world w.
  - rewrite andb_false_r. apply (dispose_shape w Hw).
Qed.

Lemma startScroll_moving (e : IMouseEvent) (w : World) :
  scrolling (ctl w) = false -> moving (ctl (startScroll e w)) = false.
Proof.
  intros Hs. rewrite (startScroll_idle_eq e w Hs).
  erewrite scrollPane_set by reflexivity.
  cbn [ctl moving]. rewrite !Z.sub_diag.
  change (moveTop_of 0) with 0. change (moveLeft_of 0) with 0.
  reflexivity.
Qed.

(** One event: movement is recorded afterwards only if it was before, or
    the event is a frame whose tick computes a non-empty direction code. *)
Lemma deliver_moving (w : World) (ev : Event) :
  well_formed w ->
  moving (ctl (deliver w ev)) = true ->
  moving (ctl w) = true \/ (ev = Frame /\ tick_moves w = true).
Proof.
  intros Hw. destruct ev as [e| |e| |t l|]; cbn.
  - destruct (disposed (ctl w)); [now left|].
    unfold windowMouseDown.
    destruct (scrolling (ctl w)) eqn:Hs.
    + rewrite stopScroll_eq. discriminate.
    + destruct (middleButton e).
      * rewrite startScroll_moving; [discriminate|].
        now rewrite createDot_scrolling.
      * intros H. left. destruct_world w; cbn in *. now destruct dot0.
  - destruct (disposed (ctl w)); [now left|].
    unfold windowMouseUp.
    destruct (moving (ctl w)) eqn:Hm; intros H; left; congruence.
  - destruct (mousemoveListener (win w)); [|now left].
    intros H. left. now destruct_world w.
  - unfold well_formed in Hw.
    destruct (scrolling (ctl w)) eqn:Hs.
    + destruct Hw as (_ & _ & _ & _ & h & _ & Hf).
      rewrite (runAnimationFrame_single w h Hf), scrollPane_moving.
      intros H. apply orb_true_iff in H. destruct H as [H|H].
      * left. now destruct_world w.
      * right. split; [reflexivity|]. now destruct_world w.
    + rewrite runAnimationFrame_none by apply Hw. now left.
  - intros H. left. now destruct_world w.
  - intros H. destruct (dispose_shape w Hw) as (_ & _ & Hm & _). congruence.
Qed.

Lemma run_well_formed (w : World) (tr : list Event) :
  well_formed w -> well_formed (run w tr).
Proof.
  revert w. induction tr as [|ev tr IH]; intros w Hw; [exact Hw|].
  apply IH. now apply deliver_well_formed.
Qed.

(** While a session runs, the first event after which it no longer does is
    a stop. *)
Lemma first_stop (w : World) (tr : list Event) :
  well_formed w -> scrolling (ctl w) = true ->
  scrolling (ctl (run w tr)) = false ->
  exists pre ev post,
    tr = pre ++ ev :: post /\ stops (run w pre) ev = true.
Proof.
  revert w. induction tr as [|ev tr IH]; intros w Hw Hs Hend.
  - cbn in Hend. congruence.
  - destruct (stops w ev) eqn:Hst.
    + now exists [], ev, tr.
    + destruct (IH (deliver w ev)) as (pre & ev' & post & -> & Hst').
      * now apply deliver_well_formed.
      * rewrite (deliver_scrolling w ev Hw), Hs, Hst.
        now rewrite orb_true_r.
      * exact Hend.
      * now exists (ev :: pre), ev', post.
Qed.

(** Movement recorded along a trace was recorded by a frame. *)
Lemma moved_by_frame (w : World) (tr : list Event) :
  well_formed w -> moving (ctl w) = false ->
  moving (ctl (run w tr)) = true ->
  exists p1 p2, tr = p1 ++ Frame :: p2 /\ tick_moves (run w p1) = true.
Proof.
  revert w. induction tr as [|ev tr IH]; intros w Hw Hm Hend.
  - cbn in Hend. congruence.
  - destruct (moving (ctl (deliver w ev))) eqn:Hm'.
    + destruct (deliver_moving w ev Hw Hm') as [H|[-> H]]; [congruence|].
      now exists [], tr.
    + destruct (IH (deliver w ev)) as (p1 & p2 & -> & Ht).
      * now apply deliver_well_formed.
      * exact Hm'.
      * exact Hend.
      * now exists (ev :: p1), p2.
Qed.

(** ** Releasing the button *)

(** C2.  While scrolling, a button-up stops the session if and only if
    movement has been recorded; a button-up with no movement recorded leaves
    the controller as it was, scrolling, and (short of disposal) the session
    is over after a later trace of events only if that trace has a button
    press, or a button-up that comes after a frame whose tick computed a
    non-empty direction code. *)
Theorem C2_release_policy (w : World) :
  reachable w -> scrolling (ctl w) = true ->
  (scrolling (ctl (windowMouseUp w)) = false <-> moving (ctl w) = true) /\
  (moving (ctl w) = false ->
   windowMouseUp w = w /\
   scrolling (ctl (windowMouseUp w)) = true /\
   forall tr,
     no_disposal tr ->
     scrolling (ctl (run (windowMouseUp w) tr)) = false ->
     exists pre ev post,
       tr = pre ++ ev :: post /\
       ((exists e, ev = MouseDown e) \/
        (ev = MouseUp /\
         exists p1 p2, pre = p1 ++ Frame :: p2 /\
                       tick_moves (run w p1) = true))).
Proof.
  intros Hr Hs. pose proof (reachable_well_formed w Hr) as Hw.
  unfold windowMouseUp. destruct (moving (ctl w)) eqn:Hm.
  - rewrite stopScroll_scrolling. repeat split; discriminate.
  - split; [rewrite Hs; split; discriminate|].
    intros _. split; [reflexivity|]. split; [exact Hs|].
    intros tr Hnd Hend.
    destruct (first_stop w tr Hw Hs Hend) as (pre & ev & post & -> & Hst).
    exists pre, ev, post. split; [reflexivity|].
    unfold stops in Hst.
    destruct ev as [e| |e| |t l|]; cbn in Hst; try discriminate Hst.
    + left. now exists e.
    + right. split; [reflexivity|].
      rewrite !orb_false_r in Hst.
      now apply moved_by_frame.
    + apply Forall_app in Hnd. destruct Hnd as (_ & Hnd).
      inversion Hnd as [|? ? Hd _]. discriminate Hd.
Qed.

Lemma C2_release_policy_witness :
  let w := session_at 200 in
  (scrolling (ctl (windowMouseUp w)) = false <-> moving (ctl w) = true) /\
  (moving (ctl w) = false ->
   windowMouseUp w = w /\
   scrolling (ctl (windowMouseUp w)) = true /\
   forall tr,
     no_disposal tr ->
     scrolling (ctl (run (windowMouseUp w) tr)) = false ->
     exists pre ev post,
       tr = pre ++ ev :: post /\
       ((exists e, ev = MouseDown e) \/
        (ev = MouseUp /\
         exists p1 p2, pre = p1 ++ Frame :: p2 /\
                       tick_moves (run w p1) = true))).
Proof.
  apply (C2_release_policy (session_at 200)); [|reflexivity].
  unfold session_at. apply run_reachable. constructor.
Defined.

(** ** Scrolling along a trace *)

Lemma app_snoc_cases {A : Type} (l pre post : list A) (e ev : A) :
  l ++ [e] = pre ++ ev :: post ->
  (post = [] /\ l = pre /\ e = ev) \/
  (exists post', post = post' ++ [e] /\ l = pre ++ ev :: post').
Proof.
  intros H. destruct post as [|p post0].
  - left. apply app_inj_tail in H. now destruct H.
  - right.
    destruct (@exists_last A (p :: post0)) as (post' & a & Heq);
      [discriminate|].
    rewrite Heq in *.
    change (pre ++ ev :: post' ++ [a]) with (pre ++ (ev :: post') ++ [a]) in H.
    rewrite app_assoc in H. apply app_inj_tail in H.
    destruct H as (-> & ->). now exists post'.
Qed.

(** The controller scrolls after a trace exactly if a starting down has
    occurred more recently than any stop, or it scrolled at the outset and
    nothing has stopped it. *)
Lemma scrolling_run (w0 : World) (tr : list Event) :
  well_formed w0 ->
  scrolling (ctl (run w0 tr)) = true <->
  start_since_stop w0 tr \/
  (scrolling (ctl w0) = true /\
   forall pre ev post,
     tr = pre ++ ev :: post -> stops (run w0 pre) ev = false).
Proof.
  intros Hw0. induction tr as [|e tr IH] using rev_ind.
  - cbn. split.
    + intros Hs. right. split; [exact Hs|].
      intros pre ev post H. now destruct pre.
    + intros [(pre & ev & post & H & _)|(Hs & _)]; [now destruct pre|exact Hs].
  - rewrite run_app. cbn [run fold_left].
    change (fold_left deliver tr w0) with (run w0 tr).
    rewrite (deliver_scrolling (run w0 tr) e) by now apply run_well_formed.
    rewrite orb_true_iff, andb_true_iff, negb_true_iff, IH. split.
    + intros [Hst|([Hss|(Hs & Hno)] & Hstop)].
      * left. exists tr, e, []. repeat split; [exact Hst|].
        intros pre' ev' post' H. now destruct pre'.
      * left. destruct Hss as (pre & ev & post & -> & Hst & Hno).
        exists pre, ev, (post ++ [e]).
        split; [now rewrite <- app_assoc|]. split; [exact Hst|].
        intros pre' ev' post' H.
        apply app_snoc_cases in H.
        destruct H as [(-> & -> & ->)|(post'' & -> & ->)].
        -- exact Hstop.
        -- now apply (Hno pre' ev' post'').
      * right. split; [exact Hs|].
        intros pre ev post H. apply app_snoc_cases in H.
        destruct H as [(-> & -> & ->)|(post'' & -> & ->)].
        -- exact Hstop.
        -- now apply (Hno pre ev post'').
    + intros [(pre & ev & post & H & Hst & Hno)|(Hs & Hno)].
      * apply app_snoc_cases in H.
        destruct H as [(-> & -> & ->)|(post'' & -> & ->)]; [now left|].
        right. split.
        -- left. exists pre, ev, post''. repeat split; [exact Hst|].
           intros pre' ev' post' H.
           apply (Hno pre' ev' (post' ++ [e])). rewrite H.
           now rewrite <- app_assoc.
        -- apply (Hno post'' e []). reflexivity.
      * right. split.
        -- right. split; [exact Hs|].
           intros pre ev post H.
           apply (Hno pre ev (post ++ [e])). rewrite H.
           now rewrite <- app_assoc.
        -- apply (Hno tr e []). reflexivity.
Qed.

(** C3, as stated, fails: a second middle-button down stops the session, so
    after two middle-button downs the controller is idle although a
    middle-button down is the most recent event and no button-up and no
    disposal has occurred at all. *)
Lemma C3_scrolling_iff_counterexample :
  let tr := [MouseDown (middle_at 100 100); MouseDown (middle_at 100 100)] in
  ~ (scrolling (ctl (run (initial 0 0) tr)) = true <->
     middle_down_since_stop (initial 0 0) tr).
Proof.
  intros tr [_ H].
  assert (Hs : scrolling (ctl (run (initial 0 0) tr)) = true).
  { apply H.
    exists [MouseDown (middle_at 100 100)], (MouseDown (middle_at 100 100)), [].
    repeat split; destruct pre'; discriminate. }
  discriminate Hs.
Qed.

(** C3, amended.  For every sequence of events applied from the initial
    state, the controller is scrolling if and only if a middle-button down
    received while idle has occurred more recently than any stop: a
    stop-triggering up, a button-down received while scrolling, or
    disposal. *)
Theorem C3_scrolling_iff (top left : Z) (tr : list Event) :
  scrolling (ctl (run (initial top left) tr)) = true <->
  start_since_stop (initial top left) tr.
Proof.
  rewrite (scrolling_run (initial top left) tr)
    by apply initial_well_formed.
  split; [|now left].
  intros [H|(H & _)]; [exact H|discriminate H].
Qed.

(** * Further properties of the code *)

(** ** The step as a function of the displacement *)

(** X1.  The deadzone of [scrollPane]: the step is zero exactly for
    displacements from -6 to 5, positive exactly above 5 and negative
    exactly below -6 (the tie of [Math.round] at -6 goes to zero); the
    horizontal step is the same function as the vertical one. *)
Theorem X1_deadzone (d : Z) :
  (moveTop_of d = 0 <-> -6 <= d <= 5) /\
  (0 < moveTop_of d <-> 5 < d) /\
  (moveTop_of d < 0 <-> d < -6) /\
  moveLeft_of d = moveTop_of d.
Proof.
  rewrite moveLeft_of_spec, moveTop_of_spec.
  destruct (spec_step_sign d) as (Hpos & Hneg & Hzero).
  assert (Hcases : 5 < d \/ d < -6 \/ -6 <= d <= 5) by lia.
  repeat split; try reflexivity; intros;
    destruct Hcases as [Hc|[Hc|Hc]];
    try (specialize (Hpos Hc)); try (specialize (Hneg Hc));
    try (specialize (Hzero Hc)); lia.
Qed.

(** X2.  The step grows with the displacement, and beyond the deadzone its
    size is at most the excess of the displacement over the threshold: a
    pointer further from the anchor never scrolls slower, and the viewport
    never moves further in a tick than the pointer is outside the
    deadzone. *)
Theorem X2_step_monotone_bounded (d1 d2 : Z) :
  d1 <= d2 ->
  moveTop_of d1 <= moveTop_of d2 /\
  (5 < d2 -> 0 < moveTop_of d2 <= d2 - 5) /\
  (d1 < -5 -> d1 + 5 <= moveTop_of d1 <= 0).
Proof.
  intros Hle. rewrite !moveTop_of_spec, !spec_step_closed.
  destruct (Z.ltb_spec 5 d1), (Z.ltb_spec 5 d2),
    (Z.ltb_spec d1 (-5)), (Z.ltb_spec d2 (-5));
    repeat split; intros; try lia;
    try (apply Z.div_le_mono; lia);
    try (apply Z.div_str_pos; lia);
    try (apply Z.div_le_upper_bound; lia);
    try (apply Z.div_le_lower_bound; lia);
    try (apply Z.div_pos; lia);
    try (transitivity 0;
         [apply Z.div_le_upper_bound; lia|apply Z.div_pos; lia]);
    try (apply Z.div_le_upper_bound; lia).
Qed.

Lemma X2_step_monotone_bounded_witness :
  moveTop_of (-9) <= moveTop_of 12 /\
  (5 < 12 -> 0 < moveTop_of 12 <= 12 - 5) /\
  (-9 < -5 -> -9 + 5 <= moveTop_of (-9) <= 0).
Proof. apply (X2_step_monotone_bounded (-9) 12). lia. Defined.

(** ** Starting a session *)

(** The world [startScroll] leaves when called while idle: its first tick
    sees the pointer on the anchor. *)
Lemma startScroll_idle_world (e : IMouseEvent) (w : World) :
  scrolling (ctl w) = false ->
  startScroll e w =
  {| ctl := {| moving := false; scrolling := true;
               currentX := Some (posx e); currentY := Some (posy e);
               x := Some (posx e); y := Some (posy e);
               animationFrameId := Some (nextHandle (win w));
               dot := option_map
                        (fun _ => {| style_left := Some (posx e);
                                     style_top := Some (posy e);
                                     hidden := false |})
                        (dot (ctl w));
               disposed := disposed (ctl w) |};
     win := {| mousemoveListener := true;
               scrollDirection := Some EmptyString;
               scrollClass := true;
               frameCallbacks := frameCallbacks (win w) ++ [nextHandle (win w)];
               nextHandle := S (nextHandle (win w)) |};
     view := view w |}.
Proof.
  intros Hs. rewrite (startScroll_idle_eq e w Hs).
  erewrite scrollPane_set by reflexivity.
  cbn [ctl win view moving scrolling dot disposed mousemoveListener
       scrollClass frameCallbacks nextHandle scrollTop scrollLeft].
  rewrite !Z.sub_diag.
  change (moveTop_of 0) with 0. change (moveLeft_of 0) with 0.
  change (direction_of 0 0) with EmptyString.
  rewrite !Z.add_0_r. cbn [String.eqb negb orb].
  now destruct (view w).
Qed.

(** X3.  A middle-button press while idle starts a session whatever the
    earlier state of the samples: anchor and current pointer are the
    position of the press, no movement is recorded, the dot exists and is
    shown at that position (it is created first if need be), the body class
    is set and the move listener registered, one more frame callback is
    queued under a fresh handle, the direction code published is empty, and
    the viewport is not scrolled. *)
Theorem X3_press_starts_session (e : IMouseEvent) (w : World) :
  scrolling (ctl w) = false -> middleButton e = true ->
  let w' := windowMouseDown e w in
  scrolling (ctl w') = true /\
  moving (ctl w') = false /\
  x (ctl w') = Some (posx e) /\ y (ctl w') = Some (posy e) /\
  currentX (ctl w') = Some (posx e) /\ currentY (ctl w') = Some (posy e) /\
  dot (ctl w') = Some {| style_left := Some (posx e);
                         style_top := Some (posy e);
                         hidden := false |} /\
  scrollClass (win w') = true /\
  mousemoveListener (win w') = true /\
  scrollDirection (win w') = Some EmptyString /\
  animationFrameId (ctl w') = Some (nextHandle (win w)) /\
  frameCallbacks (win w') = frameCallbacks (win w) ++ [nextHandle (win w)] /\
  view w' = view w.
Proof.
  intros Hs Hm w'. subst w'. unfold windowMouseDown. rewrite Hs, Hm.
  rewrite startScroll_idle_world by now rewrite createDot_scrolling.
  destruct_world w. cbn [ctl win view dot] in *.
  destruct dot0; cbn; repeat split.
Qed.

Lemma X3_press_starts_session_witness :
  let e := middle_at 30 40 in
  let w := run (session_at 200) [Frame; MouseUp] in
  let w' := windowMouseDown e w in
  scrolling (ctl w') = true /\
  moving (ctl w') = false /\
  x (ctl w') = Some (posx e) /\ y (ctl w') = Some (posy e) /\
  currentX (ctl w') = Some (posx e) /\ currentY (ctl w') = Some (posy e) /\
  dot (ctl w') = Some {| style_left := Some (posx e);
                         style_top := Some (posy e);
                         hidden := false |} /\
  scrollClass (win w') = true /\
  mousemoveListener (win w') = true /\
  scrollDirection (win w') = Some EmptyString /\
  animationFrameId (ctl w') = Some (nextHandle (win w)) /\
  frameCallbacks (win w') = frameCallbacks (win w) ++ [nextHandle (win w)] /\
  view w' = view w.
Proof.
  apply (X3_press_starts_session (middle_at 30 40)
           (run (session_at 200) [Frame; MouseUp])); reflexivity.
Defined.

(** X4.  [startScroll] called while a session runs tears the old session
    down first: it does what it does after [stopScroll], the frame callback
    of the old session is cancelled so that exactly one callback is queued
    afterwards, and the viewport is not scrolled. *)
Theorem X4_restart_single_chain (e : IMouseEvent) (w : World) :
  well_formed w -> scrolling (ctl w) = true ->
  startScroll e w = startScroll e (stopScroll w) /\
  animationFrameId (ctl (startScroll e w)) = Some (nextHandle (win w)) /\
  frameCallbacks (win (startScroll e w)) = [nextHandle (win w)] /\
  x (ctl (startScroll e w)) = Some (posx e) /\
  y (ctl (startScroll e w)) = Some (posy e) /\
  view (startScroll e w) = view w.
Proof.
  intros Hw Hs.
  assert (Heq : startScroll e w = startScroll e (stopScroll w)).
  { unfold startScroll at 1 2. now rewrite Hs, stopScroll_scrolling. }
  split; [exact Heq|]. rewrite Heq.
  rewrite startScroll_idle_world by apply stopScroll_scrolling.
  pose proof (stopScroll_idle w Hw) as (_ & _ & Hf & _).
  cbn [ctl win view animationFrameId frameCallbacks x y].
  rewrite Hf. rewrite stopScroll_eq. now repeat split.
Qed.

Lemma X4_restart_single_chain_witness :
  let e := middle_at 30 40 in
  let w := session_at 200 in
  startScroll e w = startScroll e (stopScroll w) /\
  animationFrameId (ctl (startScroll e w)) = Some (nextHandle (win w)) /\
  frameCallbacks (win (startScroll e w)) = [nextHandle (win w)] /\
  x (ctl (startScroll e w)) = Some (posx e) /\
  y (ctl (startScroll e w)) = Some (posy e) /\
  view (startScroll e w) = view w.
Proof.
  apply (X4_restart_single_chain (middle_at 30 40) (session_at 200));
    [|reflexivity].
  apply reachable_well_formed. unfold session_at.
  apply run_reachable. constructor.
Defined.

(** ** Presses of other buttons, and moves *)

(** X5.  A press of a button other than the middle one while idle never
    starts a session: all it may do is create the dot, hidden, if there is
    none yet; with a dot present it changes nothing, so a second such press
    changes nothing. *)
Theorem X5_other_button_idle (e e' : IMouseEvent) (w : World) :
  scrolling (ctl w) = false ->
  middleButton e = false -> middleButton e' = false ->
  let w' := windowMouseDown e w in
  scrolling (ctl w') = false /\
  win w' = win w /\ view w' = view w /\
  (forall d, dot (ctl w) = Some d -> w' = w) /\
  (dot (ctl w) = None ->
   dot (ctl w') =
     Some {| style_left := None; style_top := None; hidden := true |}) /\
  windowMouseDown e' w' = w'.
Proof.
  intros Hs Hm Hm' w'. subst w'. unfold windowMouseDown.
  rewrite Hs, Hm. rewrite createDot_scrolling, Hs, Hm'.
  destruct_world w. cbn [ctl win view dot scrolling] in *.
  destruct dot0; cbn; repeat split; intros; discriminate.
Qed.

Lemma X5_other_button_idle_witness :
  let e := {| posx := 7; posy := 8; middleButton := false |} in
  let w := initial 0 0 in
  let w' := windowMouseDown e w in
  scrolling (ctl w') = false /\
  win w' = win w /\ view w' = view w /\
  (forall d, dot (ctl w) = Some d -> w' = w) /\
  (dot (ctl w) = None ->
   dot (ctl w') =
     Some {| style_left := None; style_top := None; hidden := true |}) /\
  windowMouseDown e w' = w'.
Proof.
  apply (X5_other_button_idle
           {| posx := 7; posy := 8; middleButton := false |}
           {| posx := 7; posy := 8; middleButton := false |}
           (initial 0 0)); reflexivity.
Defined.

Lemma setCurrent_twice (m m' : MouseEvent) (w : World) :
  setCurrent m' (setCurrent m w) = setCurrent m' w.
Proof. now destruct_world w. Qed.

Lemma setCurrent_listener (m : MouseEvent) (w : World) :
  mousemoveListener (win (setCurrent m w)) = mousemoveListener (win w).
Proof. now destruct_world w. Qed.

(** X6.  Moves are not accumulated: while the move listener is registered,
    any run of move events leaves the world that the last of them alone
    leaves, with the current pointer at its page coordinates and the anchor,
    the viewport and the frame queue untouched. *)
Theorem X6_last_move_wins (ms : list MouseEvent) (m : MouseEvent) (w : World) :
  mousemoveListener (win w) = true ->
  run w (map MouseMove (ms ++ [m])) = setCurrent m w /\
  currentX (ctl (setCurrent m w)) = Some (pageX m) /\
  currentY (ctl (setCurrent m w)) = Some (pageY m) /\
  x (ctl (setCurrent m w)) = x (ctl w) /\
  y (ctl (setCurrent m w)) = y (ctl w) /\
  win (setCurrent m w) = win w /\
  view (setCurrent m w) = view w.
Proof.
  intros Hl. split; [|now destruct_world w].
  revert w Hl. induction ms as [|m0 ms IH]; intros w Hl.
  - cbn. now rewrite Hl.
  - cbn [app map run fold_left deliver]. rewrite Hl.
    change (fold_left deliver (map MouseMove (ms ++ [m])) (setCurrent m0 w))
      with (run (setCurrent m0 w) (map MouseMove (ms ++ [m]))).
    rewrite IH by now rewrite setCurrent_listener.
    apply setCurrent_twice.
Qed.

Lemma X6_last_move_wins_witness :
  let w := session_at 200 in
  let m := move_to 3 4 in
  run w (map MouseMove ([move_to 1 2; move_to 50 60] ++ [m])) =
    setCurrent m w /\
  currentX (ctl (setCurrent m w)) = Some (pageX m) /\
  currentY (ctl (setCurrent m w)) = Some (pageY m) /\
  x (ctl (setCurrent m w)) = x (ctl w) /\
  y (ctl (setCurrent m w)) = y (ctl w) /\
  win (setCurrent m w) = win w /\
  view (setCurrent m w) = view w.
Proof.
  apply (X6_last_move_wins [move_to 1 2; move_to 50 60] (move_to 3 4)
           (session_at 200)).
  reflexivity.
Defined.

(** ** What an event leaves alone *)

Lemma scrollPane_anchor (w : World) :
  x (ctl (scrollPane w)) = x (ctl w) /\ y (ctl (scrollPane w)) = y (ctl w).
Proof.
  destruct (samples_set w) eqn:E.
  - destruct (samples_set_inv w E) as (cX & cY & aX & aY & H1 & H2 & H3 & H4).
    rewrite (scrollPane_set w cX cY aX aY H1 H2 H3 H4); cbn.
    now rewrite H3, H4.
  - now rewrite scrollPane_absent.
Qed.

Lemma frames_anchor (l : list nat) (w : World) :
  x (ctl (fold_left fireFrame l w)) = x (ctl w) /\
  y (ctl (fold_left fireFrame l w)) = y (ctl w).
Proof.
  revert w. induction l as [|h l IH]; intros w; [now split|].
  cbn [fold_left]. destruct (IH (fireFrame w h)) as (-> & ->).
  unfold fireFrame.
  destruct (existsb _ _); [|now split].
  destruct (scrollPane_anchor (cancelAnimationFrame h w)) as (-> & ->).
  now destruct_world w.
Qed.

Lemma deliver_anchor (w : World) (ev : Event) :
  is_middle_down ev = false ->
  x (ctl (deliver w ev)) = x (ctl w) /\ y (ctl (deliver w ev)) = y (ctl w).
Proof.
  destruct ev as [e| |e| |t l|]; cbn; intros Hm.
  - destruct (disposed (ctl w)); [now split|].
    unfold windowMouseDown. rewrite Hm.
    destruct (scrolling (ctl w)); [now rewrite stopScroll_eq|].
    destruct_world w; cbn. now destruct dot0.
  - destruct (disposed (ctl w)); [now split|].
    unfold windowMouseUp.
    destruct (moving (ctl w)); [now rewrite stopScroll_eq|now split].
  - destruct (mousemoveListener (win w)); [now destruct_world w|now split].
  - apply frames_anchor.
  - now destruct_world w.
  - unfold dispose. destruct (disposed (ctl w)); [now split|].
    rewrite stopScroll_eq. cbn. now destruct (dot (ctl w)).
Qed.

(** X7.  The anchor is fixed for the life of a session: only a
    middle-button press writes it, so along any sequence of events without
    one (other presses, releases, moves, frames, outside scrolls, disposal)
    [x] and [y] keep their values, also across the end of the session. *)
Theorem X7_anchor_fixed (w : World) (tr : list Event) :
  Forall (fun ev => is_middle_down ev = false) tr ->
  x (ctl (run w tr)) = x (ctl w) /\ y (ctl (run w tr)) = y (ctl w).
Proof.
  intros H. revert w. induction H as [|ev tr Hev _ IH]; intros w.
  - now split.
  - cbn [run fold_left].
    change (fold_left deliver tr (deliver w ev)) with (run (deliver w ev) tr).
    destruct (IH (deliver w ev)) as (-> & ->).
    now apply deliver_anchor.
Qed.

Lemma X7_anchor_fixed_witness :
  let tr := [MouseMove (move_to 5 300); Frame; Frame; MouseUp; Dispose] in
  x (ctl (run (session_at 200) tr)) = x (ctl (session_at 200)) /\
  y (ctl (run (session_at 200) tr)) = y (ctl (session_at 200)).
Proof.
  apply (X7_anchor_fixed (session_at 200)
           [MouseMove (move_to 5 300); Frame; Frame; MouseUp; Dispose]).
  repeat constructor.
Defined.

Lemma deliver_view (w : World) (ev : Event) :
  writes_offsets ev = false -> view (deliver w ev) = view w.
Proof.
  destruct ev as [e| |e| |t l|]; cbn; intros Hm; try discriminate Hm.
  - destruct (disposed (ctl w)); [reflexivity|].
    unfold windowMouseDown.
    destruct (scrolling (ctl w)) eqn:Hs; [now rewrite stopScroll_eq|].
    destruct (middleButton e).
    + rewrite startScroll_idle_world by now rewrite createDot_scrolling.
      cbn. now destruct (dot (ctl w)).
    + now destruct (dot (ctl w)).
  - destruct (disposed (ctl w)); [reflexivity|].
    unfold windowMouseUp.
    destruct (moving (ctl w)); [now rewrite stopScroll_eq|reflexivity].
  - destruct (mousemoveListener (win w)); reflexivity.
  - unfold dispose. destruct (disposed (ctl w)); [reflexivity|].
    rewrite stopScroll_eq. cbn. now destruct (dot (ctl w)).
Qed.

(** X8.  The controller scrolls the viewport in frame ticks only: presses
    (also the one that starts a session, whose first tick has no
    displacement), releases, moves and disposal never change the scroll
    offsets, in any state. *)
Theorem X8_only_frames_scroll (w : World) (tr : list Event) :
  Forall (fun ev => writes_offsets ev = false) tr ->
  view (run w tr) = view w.
Proof.
  intros H. revert w. induction H as [|ev tr Hev _ IH]; intros w.
  - reflexivity.
  - cbn [run fold_left].
    change (fold_left deliver tr (deliver w ev)) with (run (deliver w ev) tr).
    rewrite IH. now apply deliver_view.
Qed.

Lemma X8_only_frames_scroll_witness :
  let tr := [MouseDown (middle_at 10 10); MouseMove (move_to 10 500);
             MouseUp; MouseDown (middle_at 1 1); Dispose] in
  view (run (initial 12 34) tr) = view (initial 12 34).
Proof.
  apply (X8_only_frames_scroll (initial 12 34)
           [MouseDown (middle_at 10 10); MouseMove (move_to 10 500);
            MouseUp; MouseDown (middle_at 1 1); Dispose]).
  repeat constructor.
Defined.

(** ** The frame loop *)

Lemma frame_of_session (w : World) (cX cY aX aY : Z) :
  well_formed w -> scrolling (ctl w) = true ->
  currentX (ctl w) = Some cX -> currentY (ctl w) = Some cY ->
  x (ctl w) = Some aX -> y (ctl w) = Some aY ->
  let w' := deliver w Frame in
  well_formed w' /\ scrolling (ctl w') = true /\
  currentX (ctl w') = Some cX /\ currentY (ctl w') = Some cY /\
  x (ctl w') = Some aX /\ y (ctl w') = Some aY /\
  moving (ctl w') = moving (ctl w) || tick_moves w /\
  scrollTop (view w') = scrollTop (view w) + spec_step (cY - aY) /\
  scrollLeft (view w') = scrollLeft (view w) + spec_step (cX - aX).
Proof.
  intros Hw Hs H1 H2 H3 H4 w'.
  split; [now apply deliver_well_formed|]. subst w'.
  pose proof Hw as Hw'. unfold well_formed in Hw'. rewrite Hs in Hw'.
  destruct Hw' as (_ & _ & _ & _ & h & _ & Hf).
  cbn [deliver]. rewrite (runAnimationFrame_single w h Hf).
  rewrite (scrollPane_set (set_frameCallbacks [] w) cX cY aX aY)
    by (destruct_world w; assumption).
  cbn [ctl win view scrolling currentX currentY x y scrollTop scrollLeft
       moving].
  rewrite moveTop_of_spec, moveLeft_of_spec.
  unfold tick_moves, tick_direction. rewrite H1, H2, H3, H4.
  rewrite ?moveTop_of_spec, ?moveLeft_of_spec.
  destruct_world w. cbn in *. repeat split; assumption.
Qed.

(** X9.  With the pointer held still, a session scrolls at constant speed:
    after [n] frames the offsets are the ones at the outset plus [n] times
    the step of the displacement, the samples are as they were and the
    session is still running. *)
Theorem X9_constant_speed (n : nat) (w : World) (cX cY aX aY : Z) :
  well_formed w -> scrolling (ctl w) = true ->
  currentX (ctl w) = Some cX -> currentY (ctl w) = Some cY ->
  x (ctl w) = Some aX -> y (ctl w) = Some aY ->
  let w' := run w (repeat Frame n) in
  scrolling (ctl w') = true /\
  currentX (ctl w') = Some cX /\ currentY (ctl w') = Some cY /\
  x (ctl w') = Some aX /\ y (ctl w') = Some aY /\
  scrollTop (view w') = scrollTop (view w) + Z.of_nat n * spec_step (cY - aY) /\
  scrollLeft (view w') =
    scrollLeft (view w) + Z.of_nat n * spec_step (cX - aX).
Proof.
  revert w. induction n as [|n IH]; intros w Hw Hs H1 H2 H3 H4.
  - cbn. repeat split; try assumption; lia.
  - destruct (frame_of_session w cX cY aX aY Hw Hs H1 H2 H3 H4)
      as (Hw' & Hs' & H1' & H2' & H3' & H4' & _ & Ht & Hl).
    specialize (IH (deliver w Frame) Hw' Hs' H1' H2' H3' H4').
    cbn [repeat run fold_left].
    change (fold_left deliver (repeat Frame n) (deliver w Frame))
      with (run (deliver w Frame) (repeat Frame n)).
    cbv zeta in IH.
    destruct IH as (? & ? & ? & ? & ? & Ht' & Hl').
    repeat split; try assumption.
    + rewrite Ht', Ht, Nat2Z.inj_succ. lia.
    + rewrite Hl', Hl, Nat2Z.inj_succ. lia.
Qed.

Lemma X9_constant_speed_witness :
  let w := session_at 117 in
  let w' := run w (repeat Frame 4) in
  scrolling (ctl w') = true /\
  currentX (ctl w') = Some 100 /\ currentY (ctl w') = Some 117 /\
  x (ctl w') = Some 100 /\ y (ctl w') = Some 100 /\
  scrollTop (view w') =
    scrollTop (view w) + Z.of_nat 4 * spec_step (117 - 100) /\
  scrollLeft (view w') =
    scrollLeft (view w) + Z.of_nat 4 * spec_step (100 - 100).
Proof.
  apply (X9_constant_speed 4 (session_at 117) 100 117 100 100);
    try reflexivity.
  apply reachable_well_formed. unfold session_at.
  apply run_reachable. constructor.
Defined.

(** ** What is held while scrolling, and only then *)

Lemma scrollPane_static (w : World) :
  scrolling (ctl (scrollPane w)) = scrolling (ctl w) /\
  dot (ctl (scrollPane w)) = dot (ctl w) /\
  disposed (ctl (scrollPane w)) = disposed (ctl w).
Proof.
  destruct (samples_set w) eqn:E.
  - destruct (samples_set_inv w E) as (cX & cY & aX & aY & H1 & H2 & H3 & H4).
    now rewrite (scrollPane_set w cX cY aX aY H1 H2 H3 H4).
  - now rewrite scrollPane_absent.
Qed.

Lemma frames_static (l : list nat) (w : World) :
  scrolling (ctl (fold_left fireFrame l w)) = scrolling (ctl w) /\
  dot (ctl (fold_left fireFrame l w)) = dot (ctl w) /\
  disposed (ctl (fold_left fireFrame l w)) = disposed (ctl w).
Proof.
  revert w. induction l as [|h l IH]; intros w; [now repeat split|].
  cbn [fold_left]. destruct (IH (fireFrame w h)) as (-> & -> & ->).
  unfold fireFrame.
  destruct (existsb _ _); [|now repeat split].
  destruct (scrollPane_static (cancelAnimationFrame h w)) as (-> & -> & ->).
  now destruct_world w.
Qed.

Lemma initial_dot_shape (top left : Z) : dot_shape (initial top left).
Proof. split; intros H; [discriminate H|reflexivity]. Qed.

Lemma deliver_dot_shape (w : World) (ev : Event) :
  dot_shape w -> dot_shape (deliver w ev).
Proof.
  intros Hd. destruct ev as [e| |e| |t l|]; cbn [deliver].
  - destruct (disposed (ctl w)) eqn:Hdis; [exact Hd|].
    unfold windowMouseDown.
    destruct (scrolling (ctl w)) eqn:Hs.
    + rewrite stopScroll_eq. split; cbn; intros H; congruence.
    + destruct (middleButton e).
      * rewrite startScroll_idle_world by now rewrite createDot_scrolling.
        destruct_world w. cbn in *. subst.
        destruct dot0; cbn; (split; intros H; [|discriminate H]);
          eexists; repeat split.
      * destruct_world w. cbn in *. subst.
        destruct dot0; cbn; split; intros H; discriminate H.
  - destruct (disposed (ctl w)) eqn:Hdis; [exact Hd|].
    unfold windowMouseUp. destruct (moving (ctl w)); [|exact Hd].
    rewrite stopScroll_eq. split; cbn; intros H; congruence.
  - destruct (mousemoveListener (win w)); [|exact Hd].
    now destruct_world w.
  - unfold dot_shape, runAnimationFrame.
    destruct (frames_static (frameCallbacks (win w)) w) as (-> & -> & ->).
    destruct (frames_anchor (frameCallbacks (win w)) w) as (-> & ->).
    exact Hd.
  - now destruct_world w.
  - unfold dispose. destruct (disposed (ctl w)) eqn:Hdis; [exact Hd|].
    rewrite stopScroll_eq. cbn.
    destruct (dot (ctl w)); split; cbn; intros H;
      try discriminate H; reflexivity.
Qed.

Lemma reachable_dot_shape (w : World) : reachable w -> dot_shape w.
Proof.
  induction 1 as [top left|w ev _ IH].
  - apply initial_dot_shape.
  - now apply deliver_dot_shape.
Qed.

(** X10.  In every state the host can reach, the body class, the move
    listener and a queued frame callback are held exactly while scrolling,
    and never more than one callback; while scrolling the dot exists, is
    shown and sits at the anchor; while idle no direction code is published
    and a dot, if there is one, is hidden; a disposed controller is idle and
    has no dot. *)
Theorem X10_held_while_scrolling (w : World) :
  reachable w ->
  scrollClass (win w) = scrolling (ctl w) /\
  mousemoveListener (win w) = scrolling (ctl w) /\
  List.length (frameCallbacks (win w)) = (if scrolling (ctl w) then 1 else 0)%nat /\
  (animationFrameId (ctl w) = None <-> scrolling (ctl w) = false) /\
  (scrolling (ctl w) = true ->
   exists d, dot (ctl w) = Some d /\ hidden d = false /\
             style_left d = x (ctl w) /\ style_top d = y (ctl w)) /\
  (scrolling (ctl w) = false ->
   scrollDirection (win w) = None /\
   forall d, dot (ctl w) = Some d -> hidden d = true) /\
  (disposed (ctl w) = true ->
   scrolling (ctl w) = false /\ dot (ctl w) = None).
Proof.
  intros Hr.
  pose proof (reachable_well_formed w Hr) as Hw.
  destruct (reachable_dot_shape w Hr) as (Hshown & Hgone).
  unfold well_formed in Hw.
  destruct (scrolling (ctl w)) eqn:Hs.
  - destruct Hw as (Hd & _ & Hm & Hc & h & Hh & Hf).
    rewrite Hm, Hc, Hh, Hf.
    repeat split; try discriminate; try (now apply Hshown); congruence.
  - destruct Hw as (_ & Ha & Hf & Hm & Hdir & Hc & Hhid).
    rewrite Hm, Hc, Ha, Hf.
    repeat split; try discriminate; try assumption; now apply Hgone.
Qed.

Lemma X10_held_while_scrolling_witness :
  let w := deliver (session_at 200) Frame in
  scrollClass (win w) = scrolling (ctl w) /\
  mousemoveListener (win w) = scrolling (ctl w) /\
  List.length (frameCallbacks (win w)) = (if scrolling (ctl w) then 1 else 0)%nat /\
  (animationFrameId (ctl w) = None <-> scrolling (ctl w) = false) /\
  (scrolling (ctl w) = true ->
   exists d, dot (ctl w) = Some d /\ hidden d = false /\
             style_left d = x (ctl w) /\ style_top d = y (ctl w)) /\
  (scrolling (ctl w) = false ->
   scrollDirection (win w) = None /\
   forall d, dot (ctl w) = Some d -> hidden d = true) /\
  (disposed (ctl w) = true ->
   scrolling (ctl w) = false /\ dot (ctl w) = None).
Proof.
  apply (X10_held_while_scrolling (deliver (session_at 200) Frame)).
  constructor. unfold session_at. apply run_reachable. constructor.
Defined.

(** ** A whole drag *)

Lemma direction_of_empty (moveTop moveLeft : Z) :
  direction_of moveTop moveLeft = EmptyString <->
  moveTop = 0 /\ moveLeft = 0.
Proof.
  unfold direction_of.
  destruct (Z.ltb_spec moveTop 0); [|destruct (Z.gtb_spec moveTop 0)];
    (destruct (Z.ltb_spec moveLeft 0); [|destruct (Z.gtb_spec moveLeft 0)]);
    cbn; split; intros H'; try discriminate H'; try lia; reflexivity.
Qed.

(** X11.  Press the middle button while idle, move, let one frame pass and
    release.  If the move leaves the deadzone along some axis, the frame
    scrolls the viewport by the steps of the displacement from the press to
    the move, and the release ends the session with nothing queued and the
    move listener removed.  If it stays inside the deadzone along both axes,
    the viewport is where it was and the release is ignored: the session
    goes on. *)
Theorem X11_drag (e : IMouseEvent) (m : MouseEvent) (w : World) :
  well_formed w -> scrolling (ctl w) = false -> disposed (ctl w) = false ->
  middleButton e = true ->
  let w' := run w (drag e m) in
  let stepTop := spec_step (pageY m - posy e) in
  let stepLeft := spec_step (pageX m - posx e) in
  (stepTop <> 0 \/ stepLeft <> 0 ->
   scrolling (ctl w') = false /\
   scrollTop (view w') = scrollTop (view w) + stepTop /\
   scrollLeft (view w') = scrollLeft (view w) + stepLeft /\
   frameCallbacks (win w') = [] /\
   mousemoveListener (win w') = false) /\
  (stepTop = 0 -> stepLeft = 0 ->
   scrolling (ctl w') = true /\
   moving (ctl w') = false /\
   view w' = view w).
Proof.
  intros Hw Hs Hd Hm w' stepTop stepLeft. subst w' stepTop stepLeft.
  rewrite <- moveTop_of_spec, <- moveLeft_of_spec.
  unfold well_formed in Hw. rewrite Hs in Hw.
  destruct Hw as (_ & _ & Hf & _).
  unfold drag, run. cbn [fold_left].
  assert (E1 : deliver w (MouseDown e) =
               startScroll e match dot (ctl w) with
                             | None => createDot w
                             | Some _ => w
                             end).
  { cbn [deliver]. rewrite Hd. unfold windowMouseDown. now rewrite Hs, Hm. }
  rewrite E1. clear E1.
  rewrite startScroll_idle_world by now rewrite createDot_scrolling.
  destruct_world w. cbn [ctl win view scrolling disposed frameCallbacks dot]
    in Hs, Hd, Hf. subst.
  assert (E2 : forall w1 : World,
             mousemoveListener (win w1) = true ->
             frameCallbacks (win w1) = [nextHandle0] ->
             deliver (deliver w1 (MouseMove m)) Frame =
             scrollPane (set_frameCallbacks [] (setCurrent m w1))).
  { intros w1 Hl1 Hf1. cbn [deliver]. rewrite Hl1.
    apply (runAnimationFrame_single _ nextHandle0).
    destruct w1 as [[? ? ? ? ? ? ? ? ?] [? ? ? ? ?] [? ?]]. exact Hf1. }
  rewrite E2 by (destruct dot0; reflexivity). clear E2.
  rewrite (scrollPane_set _ (pageX m) (pageY m) (posx e) (posy e))
    by (destruct dot0; reflexivity).
  cbv zeta.
  set (d := direction_of (moveTop_of (pageY m - posy e))
              (moveLeft_of (pageX m - posx e))).
  pose proof (direction_of_empty (moveTop_of (pageY m - posy e))
                (moveLeft_of (pageX m - posx e))) as Hempty.
  fold d in Hempty.
  cbn [deliver ctl disposed]. 
  replace (disposed (ctl (set_frameCallbacks []
            (setCurrent m _)))) with false by (destruct dot0; reflexivity).
  unfold windowMouseUp. cbn [ctl moving].
  replace (moving (ctl (set_frameCallbacks [] (setCurrent m _))))
    with false by (destruct dot0; reflexivity).
  cbn [orb].
  destruct (String.eqb_spec d EmptyString) as [Hde|Hde]; cbn [negb].
  - apply Hempty in Hde. destruct Hde as (Ht0 & Hl0). split.
    + intros [H|H]; congruence.
    + intros _ _. rewrite Ht0, Hl0, !Z.add_0_r.
      destruct dot0; repeat split.
  - split.
    + intros _. rewrite stopScroll_eq.
      cbn [ctl win view scrolling scrollTop scrollLeft animationFrameId
           frameCallbacks mousemoveListener].
      destruct dot0; cbn; rewrite Nat.eqb_refl; repeat split.
    + intros Ht0 Hl0. exfalso. apply Hde, Hempty. now split.
Qed.

Lemma X11_drag_witness :
  let e := middle_at 100 100 in
  let m := move_to 80 130 in
  let w := initial 0 0 in
  let w' := run w (drag e m) in
  let stepTop := spec_step (pageY m - posy e) in
  let stepLeft := spec_step (pageX m - posx e) in
  (stepTop <> 0 \/ stepLeft <> 0 ->
   scrolling (ctl w') = false /\
   scrollTop (view w') = scrollTop (view w) + stepTop /\
   scrollLeft (view w') = scrollLeft (view w) + stepLeft /\
   frameCallbacks (win w') = [] /\
   mousemoveListener (win w') = false) /\
  (stepTop = 0 -> stepLeft = 0 ->
   scrolling (ctl w') = true /\
   moving (ctl w') = false /\
   view w' = view w).
Proof.
  apply (X11_drag (middle_at 100 100) (move_to 80 130) (initial 0 0));
    try reflexivity.
  apply initial_well_formed.
Defined.

(** ** Disposal *)

Lemma dispose_disposed (w : World) : disposed (ctl (dispose w)) = true.
Proof.
  unfold dispose. destruct (disposed (ctl w)) eqn:Hd; [exact Hd|].
  rewrite stopScroll_eq. cbn. now destruct (dot (ctl w)).
Qed.

Lemma deliver_disposed (w : World) (ev : Event) :
  disposed (ctl w) = true -> disposed (ctl (deliver w ev)) = true.
Proof.
  intros Hd. destruct ev as [e| |e| |t l|]; cbn [deliver].
  - now rewrite Hd.
  - now rewrite Hd.
  - destruct (mousemoveListener (win w)); [|exact Hd]. now destruct_world w.
  - unfold runAnimationFrame.
    now destruct (frames_static (frameCallbacks (win w)) w) as (_ & _ & ->).
  - now destruct_world w.
  - apply dispose_disposed.
Qed.

Lemma run_disposed (w : World) (tr : list Event) :
  disposed (ctl w) = true -> disposed (ctl (run w tr)) = true.
Proof.
  revert w. induction tr as [|ev tr IH]; intros w Hd; [exact Hd|].
  apply IH. now apply deliver_disposed.
Qed.

(** X12.  Disposal is final and complete: it does not scroll the viewport,
    a second disposal changes nothing, and whatever events follow (presses
    of the middle button included) the controller stays disposed and idle,
    with no dot, no body class, no direction code, no move listener and no
    frame callback queued. *)
Theorem X12_disposal_final (w : World) (tr : list Event) :
  reachable w ->
  view (dispose w) = view w /\
  dispose (dispose w) = dispose w /\
  let w' := run (dispose w) tr in
  disposed (ctl w') = true /\
  scrolling (ctl w') = false /\
  dot (ctl w') = None /\
  scrollClass (win w') = false /\
  scrollDirection (win w') = None /\
  mousemoveListener (win w') = false /\
  animationFrameId (ctl w') = None /\
  frameCallbacks (win w') = [].
Proof.
  intros Hr.
  split; [apply (deliver_view w Dispose); reflexivity|].
  split; [unfold dispose at 1; now rewrite dispose_disposed|].
  intros w'.
  assert (Hd : disposed (ctl w') = true)
    by apply run_disposed, dispose_disposed.
  assert (Hr' : reachable w').
  { apply run_reachable. now apply (reachable_deliver w Dispose). }
  pose proof (reachable_well_formed w' Hr') as Hw.
  destruct (reachable_dot_shape w' Hr') as (_ & Hgone).
  unfold well_formed in Hw.
  destruct (scrolling (ctl w')) eqn:Hs.
  - destruct Hw as (Hd' & _). congruence.
  - destruct Hw as (_ & Ha & Hf & Hm & Hdir & Hc & _).
    repeat split; try assumption. now apply Hgone.
Qed.

Lemma X12_disposal_final_witness :
  let w := session_at 200 in
  let tr := [MouseDown (middle_at 5 5); MouseMove (move_to 5 90); Frame] in
  view (dispose w) = view w /\
  dispose (dispose w) = dispose w /\
  let w' := run (dispose w) tr in
  disposed (ctl w') = true /\
  scrolling (ctl w') = false /\
  dot (ctl w') = None /\
  scrollClass (win w') = false /\
  scrollDirection (win w') = None /\
  mousemoveListener (win w') = false /\
  animationFrameId (ctl w') = None /\
  frameCallbacks (win w') = [].
Proof.
  apply (X12_disposal_final (session_at 200)
           [MouseDown (middle_at 5 5); MouseMove (move_to 5 90); Frame]).
  unfold session_at. apply run_reachable. constructor.
Defined.

(** ** The deadzone, seen from the pointer *)

Lemma step_zero_iff (d : Z) : spec_step d = 0 <-> -6 <= d <= 5.
Proof.
  destruct (spec_step_sign d) as (Hpos & Hneg & Hzero).
  split; [|exact Hzero].
  intros H0.
  assert (Hcases : 5 < d \/ d < -6 \/ -6 <= d <= 5) by lia.
  destruct Hcases as [Hc|[Hc|Hc]];
    [specialize (Hpos Hc); lia|specialize (Hneg Hc); lia|exact Hc].
Qed.

(** X13.  A tick with both samples set does nothing visible exactly while
    the pointer is inside the deadzone, that is, from 6 before the anchor to
    5 after it along both axes: exactly then the viewport keeps its offsets,
    the published direction code is empty, and no movement is recorded that
    was not recorded before; so a release can end a session only after a
    tick has seen the pointer outside the deadzone. *)
Theorem X13_inside_deadzone (w : World) (cX cY aX aY : Z) :
  currentX (ctl w) = Some cX -> currentY (ctl w) = Some cY ->
  x (ctl w) = Some aX -> y (ctl w) = Some aY ->
  let inside := -6 <= cY - aY <= 5 /\ -6 <= cX - aX <= 5 in
  (view (scrollPane w) = view w <-> inside) /\
  (scrollDirection (win (scrollPane w)) = Some EmptyString <-> inside) /\
  (moving (ctl (scrollPane w)) = true <-> moving (ctl w) = true \/ ~ inside).
Proof.
  intros H1 H2 H3 H4 inside.
  rewrite (scrollPane_set w cX cY aX aY H1 H2 H3 H4). cbv zeta.
  cbn [ctl win view moving scrollDirection].
  pose proof (direction_of_empty (moveTop_of (cY - aY))
                (moveLeft_of (cX - aX))) as Hempty.
  assert (Hin : inside <->
                moveTop_of (cY - aY) = 0 /\ moveLeft_of (cX - aX) = 0).
  { subst inside. rewrite moveTop_of_spec, moveLeft_of_spec.
    now rewrite !step_zero_iff. }
  rewrite Hin. split; [|split].
  - destruct (view w) as [st sl]. cbn. split.
    + intros H. inversion H. lia.
    + intros (-> & ->). now rewrite !Z.add_0_r.
  - rewrite <- Hempty. split; [intros H; now inversion H|now intros ->].
  - rewrite <- Hempty, orb_true_iff, negb_true_iff.
    now rewrite String.eqb_neq.
Qed.

Lemma X13_inside_deadzone_witness :
  let w := session_at 94 in
  let inside := -6 <= 94 - 100 <= 5 /\ -6 <= 100 - 100 <= 5 in
  (view (scrollPane w) = view w <-> inside) /\
  (scrollDirection (win (scrollPane w)) = Some EmptyString <-> inside) /\
  (moving (ctl (scrollPane w)) = true <-> moving (ctl w) = true \/ ~ inside).
Proof.
  apply (X13_inside_deadzone (session_at 94) 100 94 100 100); reflexivity.
Defined.
